(** * Monthly electric load model: the hourly load-series generator

    A shallow embedding of the generation part of [streamlit_app.py]
    (the month's hourly range, the operating test, the triangular
    profile, the noise step and the rounding of [Load_kW]), with the
    properties of its specification.

    Conventions of the embedding:
    - Python [int] is [Z].  The loads, Python [float]s, are computed as
      exact rationals [Q], with [Qeq] as their equality: a theorem on
      loads is stated on the expressions the code evaluates and proved
      of their exact values.  The code rounds every operation to
      binary64; module [Binary64] evaluates the same expressions on
      those floats, and what holds of the exact values alone (a load at
      most the peak load, a multiple of 1/1000) is refuted there.
    - [datetime.time] is a record of hour, minute and second; its
      microsecond field is always 0 here (the time widget has minute
      resolution and the range is hourly) and is left out.
    - [datetime.datetime] is a record of its fields; a pandas [Timestamp]
      is a count of seconds, with its fields computed from it.  The count
      starts one day before 0001-01-01 00:00, so that [ts / 86400] is the
      proleptic Gregorian ordinal of the day (pandas counts nanoseconds
      from 1970; the origin and the unit do not change the fields).  The
      calendar arithmetic follows CPython's [datetime] module
      ([_ymd2ord], [_ord2ymd], [weekday]).
    - The numpy generator is a parameter: a state type, a seeding function
      and a standard-normal draw returning a sample and the next state.
    - The libraries raise as they do: [datetime] on a field out of range
      or too large for a C int, [pd.date_range] on a bound outside the
      timestamps of pandas (1677 to 2262).  numpy refuses a negative
      seed; the seed widget has none, and the properties are stated for
      seeds from 0. *)

From Stdlib Require Import ZArith QArith Qround Qminmax List String Bool.
From Stdlib Require Import Lia Lqa.
Import ListNotations.
Local Open Scope Z_scope.

(** ** Calendar arithmetic (CPython's [datetime]) *)

Module Calendar.

Definition MINYEAR : Z := 1.
Definition MAXYEAR : Z := 9999.
Definition MAXORDINAL : Z := 3652059.

(** [_is_leap(year)] *)
Definition is_leap (year : Z) : bool :=
  (year mod 4 =? 0) && (negb (year mod 100 =? 0) || (year mod 400 =? 0)).

(** [_days_before_year(year)]: days before January 1st of [year]. *)
Definition days_before_year (year : Z) : Z :=
  let y := year - 1 in
  y * 365 + y / 4 - y / 100 + y / 400.

(** [_DAYS_IN_MONTH], indexed from 1 (index 0 holds -1 in CPython). *)
Definition DAYS_IN_MONTH (month : Z) : Z :=
  match month with
  | 1 => 31 | 2 => 28 | 3 => 31 | 4 => 30 | 5 => 31 | 6 => 30
  | 7 => 31 | 8 => 31 | 9 => 30 | 10 => 31 | 11 => 30 | 12 => 31
  | _ => -1
  end.

(** [_DAYS_BEFORE_MONTH], indexed from 1. *)
Definition DAYS_BEFORE_MONTH (month : Z) : Z :=
  match month with
  | 1 => 0 | 2 => 31 | 3 => 59 | 4 => 90 | 5 => 120 | 6 => 151
  | 7 => 181 | 8 => 212 | 9 => 243 | 10 => 273 | 11 => 304 | 12 => 334
  | _ => -1
  end.

(** [_days_in_month(year, month)] *)
Definition days_in_month (year month : Z) : Z :=
  if (month =? 2) && is_leap year then 29 else DAYS_IN_MONTH month.

(** [_days_before_month(year, month)] *)
Definition days_before_month (year month : Z) : Z :=
  DAYS_BEFORE_MONTH month + (if (2 <? month) && is_leap year then 1 else 0).

(** [_ymd2ord(year, month, day)]: ordinal, with 0001-01-01 as day 1. *)
Definition ymd2ord (year month day : Z) : Z :=
  days_before_year year + days_before_month year month + day.

Definition DI400Y : Z := 146097.
Definition DI100Y : Z := 36524.
Definition DI4Y : Z := 1461.

(** [_ord2ymd(n)]: the inverse of [_ymd2ord]. *)
Definition ord2ymd (n0 : Z) : Z * Z * Z :=
  let n := n0 - 1 in
  let n400 := n / DI400Y in
  let n := n mod DI400Y in
  let year := n400 * 400 + 1 in
  let n100 := n / DI100Y in
  let n := n mod DI100Y in
  let n4 := n / DI4Y in
  let n := n mod DI4Y in
  let n1 := n / 365 in
  let n := n mod 365 in
  let year := year + (n100 * 100 + n4 * 4 + n1) in
  if (n1 =? 4) || (n100 =? 4) then (year - 1, 12, 31)
  else
    let leapyear := (n1 =? 3) && (negb (n4 =? 24) || (n100 =? 3)) in
    let month := Z.shiftr (n + 50) 5 in
    let preceding :=
      DAYS_BEFORE_MONTH month + (if (2 <? month) && leapyear then 1 else 0) in
    let '(month, preceding) :=
      if n <? preceding
      then (month - 1,
            preceding - (DAYS_IN_MONTH (month - 1)
                         + (if (month - 1 =? 2) && leapyear then 1 else 0)))
      else (month, preceding) in
    (year, month, n - preceding + 1).

(** [strftime("%A")] in the C locale: the name of weekday number
    [(ordinal + 6) % 7], Monday being 0. *)
Definition weekday_of_ordinal (ord : Z) : Z := (ord + 6) mod 7.

Definition day_name (wd : Z) : string :=
  match wd with
  | 0 => "Monday" | 1 => "Tuesday" | 2 => "Wednesday" | 3 => "Thursday"
  | 4 => "Friday" | 5 => "Saturday" | _ => "Sunday"
  end%string.

End Calendar.

(** ** Errors raised by the calendar constructors *)

Inductive py_error : Type :=
| ValueError      (* a date field out of range *)
| OverflowError   (* a number that does not fit a C int, or date
                     arithmetic leaving the supported ordinals *)
| OutOfBoundsDatetime.  (* a timestamp outside pandas' nanosecond range *)

Inductive result (A : Type) : Type :=
| Ok (a : A)
| Raise (e : py_error).
Arguments Ok {A} a.
Arguments Raise {A} e.

Definition bind {A B : Type} (r : result A) (k : A -> result B) : result B :=
  match r with
  | Ok a => k a
  | Raise e => Raise e
  end.

Notation "x <- r ;; k" := (bind r (fun x => k))
  (at level 61, r at next level, right associativity).

(** ** Times of day, datetimes and timestamps *)

(** [datetime.time] *)
Record time : Type := mk_time { t_hour : Z; t_minute : Z; t_second : Z }.

(** The type's own range check on its fields. *)
Definition valid_time (t : time) : Prop :=
  0 <= t_hour t < 24 /\ 0 <= t_minute t < 60 /\ 0 <= t_second t < 60.

(** Python orders times as the tuples (hour, minute, second). *)
Definition time_cmp (a b : time) : comparison :=
  match t_hour a ?= t_hour b with
  | Eq => match t_minute a ?= t_minute b with
          | Eq => t_second a ?= t_second b
          | c => c
          end
  | c => c
  end.

Definition time_le (a b : time) : bool :=
  match time_cmp a b with Gt => false | _ => true end.
Definition time_lt (a b : time) : bool :=
  match time_cmp a b with Lt => true | _ => false end.
Definition time_ge (a b : time) : bool := time_le b a.

(** [datetime.datetime] *)
Record datetime : Type := mk_datetime {
  dt_year : Z; dt_month : Z; dt_day : Z;
  dt_hour : Z; dt_minute : Z; dt_second : Z }.

(** The numbers a C [int] holds: the constructor of [datetime] takes
    its arguments as such. *)
Definition fits_c_int (n : Z) : bool :=
  (-2147483648 <=? n) && (n <=? 2147483647).

(** [datetime(year, month, day, hour, minute)]: an argument that does
    not fit a C int raises [OverflowError]; then come the checks of
    [_check_date_fields]; the time fields used by the program are the
    constants 0. *)
Definition datetime_new (year month day hour minute : Z) : result datetime :=
  if negb (fits_c_int year && fits_c_int month && fits_c_int day
           && fits_c_int hour && fits_c_int minute)
  then Raise OverflowError
  else if negb ((Calendar.MINYEAR <=? year) && (year <=? Calendar.MAXYEAR))
  then Raise ValueError
  else if negb ((1 <=? month) && (month <=? 12)) then Raise ValueError
  else if negb ((1 <=? day) && (day <=? Calendar.days_in_month year month))
  then Raise ValueError
  else if negb ((0 <=? hour) && (hour <=? 23)) then Raise ValueError
  else if negb ((0 <=? minute) && (minute <=? 59)) then Raise ValueError
  else Ok (mk_datetime year month day hour minute 0).

(** Seconds from the start of ordinal day 0. *)
Definition datetime_seconds (d : datetime) : Z :=
  Calendar.ymd2ord (dt_year d) (dt_month d) (dt_day d) * 86400
  + dt_hour d * 3600 + dt_minute d * 60 + dt_second d.

(** [d - timedelta(hours=h)]: [datetime.__add__] normalises the sum to
    days and seconds and rebuilds the date from the ordinal. *)
Definition datetime_sub_hours (d : datetime) (h : Z) : result datetime :=
  let total := datetime_seconds d - h * 3600 in
  let days := total / 86400 in
  let secs := total mod 86400 in
  if (0 <? days) && (days <=? Calendar.MAXORDINAL) then
    let '(y, m, dd) := Calendar.ord2ymd days in
    Ok (mk_datetime y m dd (secs / 3600) (secs mod 3600 / 60) (secs mod 60))
  else Raise OverflowError.

(** A pandas [Timestamp], at the resolution of one second. *)
Definition Timestamp : Type := Z.

Definition Timestamp_of (d : datetime) : Timestamp := datetime_seconds d.

Definition ts_ordinal (ts : Timestamp) : Z := ts / 86400.
Definition ts_year (ts : Timestamp) : Z :=
  fst (fst (Calendar.ord2ymd (ts_ordinal ts))).
Definition ts_month (ts : Timestamp) : Z :=
  snd (fst (Calendar.ord2ymd (ts_ordinal ts))).
Definition ts_day (ts : Timestamp) : Z :=
  snd (Calendar.ord2ymd (ts_ordinal ts)).
Definition ts_hour (ts : Timestamp) : Z := ts mod 86400 / 3600.
Definition ts_minute (ts : Timestamp) : Z := ts mod 3600 / 60.
Definition ts_second (ts : Timestamp) : Z := ts mod 60.

(** [ts.time()] *)
Definition ts_time (ts : Timestamp) : time :=
  mk_time (ts_hour ts) (ts_minute ts) (ts_second ts).

(** [ts.strftime("%A")] *)
Definition strftime_A (ts : Timestamp) : string :=
  Calendar.day_name (Calendar.weekday_of_ordinal (ts_ordinal ts)).

(** The first and the last whole second of pandas' timestamps, which
    count nanoseconds in 64 bits: 1677-09-21 00:12:44 and
    2262-04-11 23:47:16. *)
Definition Timestamp_min : Timestamp :=
  Calendar.ymd2ord 1677 9 21 * 86400 + 764.
Definition Timestamp_max : Timestamp :=
  Calendar.ymd2ord 2262 4 11 * 86400 + 85636.

Definition in_bounds (ts : Timestamp) : bool :=
  (Timestamp_min <=? ts) && (ts <=? Timestamp_max).

(** [pd.date_range(start, end, freq="H")]: [start], [start] + 1 h, ...,
    up to and including [end]; empty when [end] is before [start].  A
    bound outside the range of the timestamps raises
    [OutOfBoundsDatetime]. *)
Definition date_range (start end_ : Timestamp) : result (list Timestamp) :=
  if in_bounds start && in_bounds end_
  then Ok (map (fun i => start + 3600 * Z.of_nat i)
               (seq 0 (Z.to_nat ((end_ - start) / 3600 + 1))))
  else Raise OutOfBoundsDatetime.

(** ** Numbers *)

(** Python's [max(a, b)]: [a] unless [b] is strictly greater. *)
Definition py_max (a b : Q) : Q :=
  match (a ?= b)%Q with Lt => b | _ => a end.

(** Rounding to the nearest integer, ties to the even one. *)
Definition round_half_even (q : Q) : Z :=
  let f := Qfloor q in
  match (q - inject_Z f ?= 1 # 2)%Q with
  | Lt => f
  | Gt => f + 1
  | Eq => if Z.even f then f else f + 1
  end.

(** [round(x, 3)] *)
Definition round3 (x : Q) : Q :=
  (inject_Z (round_half_even (x * 1000)) / 1000)%Q.

(** ** The configuration read from the sidebar *)

Record Config : Type := mk_config {
  year : Z;
  month : Z;
  operating_start : time;
  operating_end : time;
  weekdays : list string;
  base_load : Q;
  peak_load : Q;
  random_pct : Q;
  seed : Z }.


(** One row of the data frame. *)
Record Row : Type := mk_row {
  Datetime : Timestamp;
  Year : Z;
  Month : Z;
  Day : Z;
  Hour : Z;
  Weekday : string;
  Operating : bool;
  Load_kW : Q }.

(** ** The body of the loop, before the noise *)

(** [dow in weekdays] *)
Definition is_operating_day (c : Config) (ts : Timestamp) : bool :=
  existsb (String.eqb (strftime_A ts)) (weekdays c).

(** The test of the operating hours: inclusive start, exclusive end, and
    the overnight schedule when the start is after the end. *)
Definition in_hours (start end_ current_time : time) : bool :=
  if time_le start end_
  then time_le start current_time && time_lt current_time end_
  else time_ge current_time start || time_lt current_time end_.

(** [bool(is_operating_day and in_hours)] *)
Definition is_operating (c : Config) (ts : Timestamp) : bool :=
  is_operating_day c ts
  && in_hours (operating_start c) (operating_end c) (ts_time ts).

Definition seconds_of (t : time) : Z :=
  t_hour t * 3600 + t_minute t * 60 + t_second t.

Definition start_seconds (c : Config) : Z := seconds_of (operating_start c).

(** [end_seconds], moved to the next day for an overnight window. *)
Definition end_seconds (c : Config) : Z :=
  let e := seconds_of (operating_end c) in
  if e <=? start_seconds c then e + 24 * 3600 else e.

(** [current_seconds], moved to the next day when before the start. *)
Definition current_seconds (c : Config) (ts : Timestamp) : Z :=
  let cur := ts_hour ts * 3600 + ts_minute ts * 60 + ts_second ts in
  if cur <? start_seconds c then cur + 24 * 3600 else cur.

Definition midpoint (c : Config) : Q :=
  (inject_Z (start_seconds c + end_seconds c) / 2)%Q.

Definition Qleb (a b : Q) : bool :=
  match (a ?= b)%Q with Gt => false | _ => true end.
Definition Qltb (a b : Q) : bool :=
  match (a ?= b)%Q with Lt => true | _ => false end.

(** The interpolation fraction of the two halves of the window. *)
Definition frac (c : Config) (ts : Timestamp) : Q :=
  let cur := inject_Z (current_seconds c ts) in
  if Qleb cur (midpoint c)
  then ((cur - inject_Z (start_seconds c))
        / py_max (midpoint c - inject_Z (start_seconds c)) 1)%Q
  else ((cur - midpoint c)
        / py_max (inject_Z (end_seconds c) - midpoint c) 1)%Q.

(** Triangular profile peaking at the midpoint of the operating window. *)
Definition triangular_load (c : Config) (ts : Timestamp) : Q :=
  if Qleb (inject_Z (current_seconds c ts)) (midpoint c)
  then (base_load c + (peak_load c - base_load c) * frac c ts)%Q
  else (peak_load c - (peak_load c - base_load c) * frac c ts)%Q.

(** The value of [load] before the random variation is applied. *)
Definition pre_noise_load (c : Config) (ts : Timestamp) : Q :=
  if is_operating c ts then triangular_load c ts else base_load c.

(** The first and the last timestamp of the month; either constructor
    may raise. *)
Definition start_date (c : Config) : result datetime :=
  datetime_new (year c) (month c) 1 0 0.

Definition end_date (c : Config) : result datetime :=
  if month c =? 12
  then d <- datetime_new (year c + 1) 1 1 0 0 ;; datetime_sub_hours d 1
  else d <- datetime_new (year c) (month c + 1) 1 0 0 ;;
       datetime_sub_hours d 1.

Definition month_range (c : Config) : result (list Timestamp) :=
  s <- start_date c ;;
  e <- end_date c ;;
  date_range (Timestamp_of s) (Timestamp_of e).

(** ** The generator, over an arbitrary random source *)

Section Generator.

(** The state of numpy's [Generator]. *)
Variable Generator : Type.
(** [default_rng(seed)] for an integer seed. *)
Variable seeded : Z -> Generator.
(** One standard-normal draw: the sample and the advanced state. *)
Variable standard_normal : Generator -> Q * Generator.

(** [default_rng(None if seed == 0 else int(seed))]: without a seed the
    state comes from fresh entropy of the system, here the argument
    [fresh].  The seeds are those of the seed widget, which are not
    negative; numpy refuses a negative seed, which is not modelled. *)
Definition default_rng (c : Config) (fresh : Generator) : Generator :=
  if seed c =? 0 then fresh else seeded (seed c).

(** [rng.normal(loc, scale)] *)
Definition normal (rng : Generator) (loc scale : Q) : Q * Generator :=
  let '(z, rng') := standard_normal rng in ((loc + scale * z)%Q, rng').

(** The random variation: a percentage of the instantaneous load, and
    the clamp at 0. *)
Definition apply_noise (c : Config) (rng : Generator) (load : Q)
  : Q * Generator :=
  if Qltb 0 (random_pct c) then
    let '(z, rng') := normal rng 0 (random_pct c / 100) in
    let noise := (z * load)%Q in
    (py_max (load + noise) 0, rng')
  else (load, rng).

(** One iteration of the loop: the row for [ts] and the state of the
    random source after it. *)
Definition loop_body (c : Config) (rng : Generator) (ts : Timestamp)
  : Row * Generator :=
  let '(load, rng') := apply_noise c rng (pre_noise_load c ts) in
  (mk_row ts (ts_year ts) (ts_month ts) (ts_day ts) (ts_hour ts)
          (strftime_A ts) (is_operating c ts) (round3 load),
   rng').

(** [for ts in date_range: ... rows.append(...)] *)
Fixpoint rows_loop (c : Config) (rng : Generator) (range : list Timestamp)
  (rows : list Row) : list Row * Generator :=
  match range with
  | [] => (rows, rng)
  | ts :: rest =>
      let '(row, rng') := loop_body c rng ts in
      rows_loop c rng' rest (rows ++ [row])
  end.

(** The whole run: the rows and the final state of the random source. *)
Definition run (c : Config) (fresh : Generator)
  : result (list Row * Generator) :=
  range <- month_range c ;;
  Ok (rows_loop c (default_rng c fresh) range []).

Definition generate (c : Config) (fresh : Generator) : result (list Row) :=
  r <- run c fresh ;; Ok (fst r).

End Generator.

Arguments default_rng {Generator} seeded c fresh.
Arguments normal {Generator} standard_normal rng loc scale.
Arguments apply_noise {Generator} standard_normal c rng load.
Arguments loop_body {Generator} standard_normal c rng ts.
Arguments rows_loop {Generator} standard_normal c rng range rows.
Arguments run {Generator} seeded standard_normal c fresh.
Arguments generate {Generator} seeded standard_normal c fresh.

(** ** Definitions used to state and prove the properties *)

(** The integers [lo], [lo + 1], ..., [n] of them. *)
Definition zrange (lo : Z) (n : nat) : list Z :=
  map (fun i => lo + Z.of_nat i) (seq 0 n).

Definition leap_day (y : Z) : Z := if Calendar.is_leap y then 1 else 0.

(** The month and day part of [Calendar.ord2ymd], from the zero-based
    day of the year. *)
Definition month_day (leapyear : bool) (n : Z) : Z * Z :=
  let month := Z.shiftr (n + 50) 5 in
  let preceding :=
    Calendar.DAYS_BEFORE_MONTH month
    + (if (2 <? month) && leapyear then 1 else 0) in
  let '(month, preceding) :=
    if n <? preceding
    then (month - 1,
          preceding - (Calendar.DAYS_IN_MONTH (month - 1)
                       + (if (month - 1 =? 2) && leapyear then 1 else 0)))
    else (month, preceding) in
  (month, n - preceding + 1).

(** The zero-based day of the year of a month and day. *)
Definition year_day (l : bool) (m d : Z) : Z :=
  Calendar.DAYS_BEFORE_MONTH m + (if (2 <? m) && l then 1 else 0) + d - 1.

Definition month_length (l : bool) (m : Z) : Z :=
  if (m =? 2) && l then 29 else Calendar.DAYS_IN_MONTH m.

(** [month_day] finds back every day of month [m]. *)
Definition month_day_inverts (l : bool) (m : Z) : bool :=
  forallb (fun d => let '(m', d') := month_day l (year_day l m d) in
                    (m' =? m) && (d' =? d))
          (zrange 1 (Z.to_nat (month_length l m))).

(** [n] consecutive hours from [start]. *)
Definition hours_from (start : Timestamp) (n : nat) : list Timestamp :=
  map (fun i => start + 3600 * Z.of_nat i) (seq 0 n).

(** The first hour of a month. *)
Definition month_start (y m : Z) : Timestamp := Calendar.ymd2ord y m 1 * 86400.

(** The number of hours of a month. *)
Definition month_hours (y m : Z) : Z := Calendar.days_in_month y m * 24.

(** The operating window in the words of the specification, on seconds
    since midnight. *)
Definition in_window (start end_ cur : time) : Prop :=
  (seconds_of start <= seconds_of end_ /\
   seconds_of start <= seconds_of cur < seconds_of end_)
  \/ (seconds_of start > seconds_of end_ /\
      (seconds_of cur >= seconds_of start \/ seconds_of cur < seconds_of end_)).

(** A value with at most three decimal digits. *)
Definition three_decimals (x : Q) : Prop :=
  exists z : Z, (x * 1000 == inject_Z z)%Q.

(** The row of hour [ts] when its load after the noise step is [load]. *)
Definition row_of (c : Config) (ts : Timestamp) (load : Q) : Row :=
  mk_row ts (ts_year ts) (ts_month ts) (ts_day ts) (ts_hour ts)
         (strftime_A ts) (is_operating c ts) (round3 load).

(** The row of a run without noise: no random source in sight. *)
Definition quiet_row (c : Config) (ts : Timestamp) : Row :=
  row_of c ts (pre_noise_load c ts).

(** The load of an hour whose standard-normal sample is [z]. *)
Definition noisy_load (c : Config) (ts : Timestamp) (z : Q) : Q :=
  let load := pre_noise_load c ts in
  py_max (load + (0 + random_pct c / 100 * z) * load) 0.

Section Draws.

Variable Generator : Type.
Variable standard_normal : Generator -> Q * Generator.

(** The next [n] samples of the random source. *)
Fixpoint samples (rng : Generator) (n : nat) : list Q :=
  match n with
  | O => []
  | S n' => let '(z, rng') := standard_normal rng in z :: samples rng' n'
  end.

(** The state of the random source after [n] draws. *)
Fixpoint advance (rng : Generator) (n : nat) : Generator :=
  match n with
  | O => rng
  | S n' => advance (snd (standard_normal rng)) n'
  end.

End Draws.

Arguments samples {Generator} standard_normal rng n.
Arguments advance {Generator} standard_normal rng n.

(** The rows of a [result], none if it is an error. *)
Definition rows_of (r : result (list Row)) : list Row :=
  match r with Ok rows => rows | Raise _ => [] end.

(** *** A small random source and sample configurations *)

Module Sample.

(** A linear congruential source with samples in {-3/2, -1, ..., 3/2}. *)
Definition lcg_normal (s : Z) : Q * Z :=
  ((s mod 7 - 3) # 2, (s * 1103515245 + 12345) mod 2147483648).

Definition lcg_seeded (s : Z) : Z := s.

Definition working_days : list string :=
  ["Monday"; "Tuesday"; "Wednesday"; "Thursday"; "Friday"]%string.

(** February 2024, 08:00 to 18:00 on working days, 50 to 150 kW. *)
Definition office : Config :=
  mk_config 2024 2 (mk_time 8 0 0) (mk_time 18 0 0) working_days
            50 150 0 0.

(** The same with 5 % of noise and seed 42. *)
Definition office_noisy : Config :=
  mk_config 2024 2 (mk_time 8 0 0) (mk_time 18 0 0) working_days
            50 150 5 42.

(** A base load of 0.0004 kW and a peak load of 0.0016 kW. *)
Definition office_fine : Config :=
  mk_config 2024 2 (mk_time 8 0 0) (mk_time 18 0 0) working_days
            (1 # 2500) (1 # 625) 0 0.



(** An overnight schedule, 22:00 to 06:00. *)
Definition night_shift : Config :=
  mk_config 2024 2 (mk_time 22 0 0) (mk_time 6 0 0) working_days
            50 150 0 0.

Definition gen (c : Config) (fresh : Z) : result (list Row) :=
  generate lcg_seeded lcg_normal c fresh.

(** 2024-02-01 (a Thursday) at hour [h]. *)
Definition feb1 (h : Z) : Timestamp := month_start 2024 2 + 3600 * h.

(** The rows of a sample run without entropy, and its row number [i]. *)
Definition rows (c : Config) : list Row := rows_of (gen c 0).

Definition no_row : Row := mk_row 0 0 0 0 0 EmptyString false 0.

Definition row (c : Config) (i : nat) : Row := nth i (rows c) no_row.

End Sample.

(** ** The report: preview, summary and download names *)

From Stdlib Require Import Ascii.
From Stdlib Require DecimalString DecimalPos DecimalZ.

Module Report.

Local Open Scope string_scope.

(** [df.head(168)] *)
Definition preview (rows : list Row) : list Row := firstn 168 rows.

(** [int(len(df))], the metric "Hours in month". *)
Definition hours_in_month (rows : list Row) : Z := Z.of_nat (List.length rows).

(** The column [df['Load_kW']]. *)
Definition Load_kW_column (rows : list Row) : list Q := map Load_kW rows.

Definition series_sum (xs : list Q) : Q := fold_left Qplus xs 0%Q.

(** [Series.mean()]: the sum over the count; an empty column has no
    mean (pandas answers with a NaN). *)
Definition series_mean (xs : list Q) : option Q :=
  match xs with
  | [] => None
  | _ => Some (series_sum xs / inject_Z (Z.of_nat (List.length xs)))%Q
  end.

(** [Series.max()]: the running maximum; none on an empty column. *)
Definition series_max (xs : list Q) : option Q :=
  match xs with
  | [] => None
  | x :: rest => Some (fold_left py_max rest x)
  end.

(** The values behind the metrics "Average load" and "Peak load",
    before their formatting with two decimals. *)
Definition average_load (rows : list Row) : option Q :=
  series_mean (Load_kW_column rows).
Definition peak_metric (rows : list Row) : option Q :=
  series_max (Load_kW_column rows).

(** [str(n)] for an integer: its decimal digits after the sign. *)
Definition str_int (n : Z) : string :=
  DecimalString.NilZero.string_of_int (Z.to_int n).

Fixpoint zeros (n : nat) : string :=
  match n with
  | O => EmptyString
  | S n' => String "0" (zeros n')
  end.

(** [format(n, "02d")]: the sign, zeros up to a width of two characters,
    the digits. *)
Definition format_02d (n : Z) : string :=
  let digits := str_int (Z.abs n) in
  if (n <? 0)%Z
  then String "-" (zeros (1 - String.length digits)%nat ++ digits)
  else zeros (2 - String.length digits)%nat ++ digits.

(** [f"load_model_{int(year)}_{int(month):02d}"] and the extension. *)
Definition file_name (c : Config) (extension : string) : string :=
  "load_model_" ++ str_int (year c) ++ "_" ++ format_02d (month c)
  ++ extension.

Definition excel_file_name (c : Config) : string := file_name c ".xlsx".
Definition csv_file_name (c : Config) : string := file_name c ".csv".

(** The characters of a string, to state what a name is made of. *)
Fixpoint chars (s : string) : list ascii :=
  match s with
  | EmptyString => []
  | String a s' => a :: chars s'
  end.

Definition digit (ch : ascii) : Prop := In ch (chars "0123456789").

(** The value of a string of digits, leading zeros allowed. *)
Definition digits_value (s : string) : option Z :=
  option_map Z.of_uint (DecimalString.NilEmpty.uint_of_string s).

End Report.

(** *** More sample configurations *)

Module Scenario.

(** No operating day selected. *)
Definition closed : Config :=
  mk_config 2024 2 (mk_time 8 0 0) (mk_time 18 0 0) [] 50 150 0 0.

(** All seven days selected. *)
Definition every_day : Config :=
  mk_config 2024 2 (mk_time 8 0 0) (mk_time 18 0 0)
            ["Monday"; "Tuesday"; "Wednesday"; "Thursday"; "Friday";
             "Saturday"; "Sunday"]%string 50 150 0 0.

(** Base and peak load equal. *)
Definition flat : Config :=
  mk_config 2024 2 (mk_time 8 0 0) (mk_time 18 0 0) Sample.working_days
            80 80 0 0.

(** No base load, 5 % of noise, seed 42. *)
Definition no_base_noisy : Config :=
  mk_config 2024 2 (mk_time 8 0 0) (mk_time 18 0 0) Sample.working_days
            0 150 5 42.

(** December 2024. *)
Definition december : Config :=
  mk_config 2024 12 (mk_time 8 0 0) (mk_time 18 0 0) Sample.working_days
            50 150 0 0.

(** A window from 08:00 to 16:00. *)
Definition short_day : Config :=
  mk_config 2024 2 (mk_time 8 0 0) (mk_time 16 0 0) Sample.working_days
            50 150 0 0.

End Scenario.

(** ** The load in binary floating point *)

(** The loads of the program are Python floats, IEEE binary64 numbers.
    The definitions above compute them as exact rationals; this module
    evaluates the same lines of the loop on the floats themselves, to
    tell which properties of the exact values the computed ones share. *)

From Stdlib Require PrimFloat FloatOps SpecFloat Uint63.

Module Binary64.

Import PrimFloat.PrimFloatNotations.
Local Open Scope float_scope.

Definition float : Set := PrimFloat.float.

(** [float(n)], exact for the integers below 2^53 in size. *)
Definition of_int (n : Z) : float :=
  if (n <? 0)%Z then - PrimFloat.of_uint63 (Uint63.of_Z (- n))
  else PrimFloat.of_uint63 (Uint63.of_Z n).

(** The float nearest to [n / d]: the value of a decimal such as 0.29,
    [ratio 29 100]. *)
Definition ratio (n d : Z) : float := of_int n / of_int d.

(** The exact value of a finite float. *)
Definition exact (x : float) : option Q :=
  match FloatOps.Prim2SF x with
  | SpecFloat.S754_zero _ => Some 0%Q
  | SpecFloat.S754_finite s m e =>
      let v := if (e <? 0)%Z then Z.pos m # Pos.pow 2 (Z.to_pos (- e))
               else inject_Z (Z.pos m * 2 ^ e) in
      Some (if s then - v else v)%Q
  | _ => None
  end.

(** Python's [max(a, b)] *)
Definition py_max (a b : float) : float := if a <? b then b else a.

(** [round(x, 3)]: the float nearest to the value of three decimals
    nearest to the exact value of [x], ties to the even digit; a float
    too large to have decimals, an infinity and a NaN are returned as
    they are. *)
Definition round3 (x : float) : float :=
  match exact x with
  | Some q =>
      let n := round_half_even (q * 1000) in
      if (Z.abs n <? 2 ^ 53)%Z then ratio n 1000 else x
  | None => x
  end.

(** [midpoint = (start_seconds + end_seconds) / 2.0] *)
Definition midpoint (c : Config) : float :=
  of_int (start_seconds c + end_seconds c) / of_int 2.

(** The two halves of the triangular profile, for a base and a peak
    load given as floats. *)
Definition triangular_load (base_load peak_load : float) (c : Config)
  (ts : Timestamp) : float :=
  let current_seconds := current_seconds c ts in
  if of_int current_seconds <=? midpoint c then
    let frac := of_int (current_seconds - start_seconds c)
                / py_max (midpoint c - of_int (start_seconds c)) (of_int 1) in
    base_load + (peak_load - base_load) * frac
  else
    let frac := (of_int current_seconds - midpoint c)
                / py_max (of_int (end_seconds c) - midpoint c) (of_int 1) in
    peak_load - (peak_load - base_load) * frac.

Definition pre_noise_load (base_load peak_load : float) (c : Config)
  (ts : Timestamp) : float :=
  if is_operating c ts then triangular_load base_load peak_load c ts
  else base_load.

(** The random variation for a sample [z] of the standard normal
    distribution, [scale] being [random_pct / 100.0]. *)
Definition apply_noise (scale z load : float) : float :=
  let noise := (of_int 0 + scale * z) * load in
  py_max (load + noise) (of_int 0).

(** The column [Load_kW] of an hour of a run without noise. *)
Definition Load_kW (base_load peak_load : float) (c : Config)
  (ts : Timestamp) : float :=
  round3 (pre_noise_load base_load peak_load c ts).

End Binary64.

(** * Properties *)

(** ** The calendar: [ord2ymd] inverts [ymd2ord] *)

Module CalendarFacts.
Import Calendar.

Lemma year_digits (y : Z) :
  1 <= y ->
  exists a b c e,
    y - 1 = 400 * a + 100 * b + 4 * c + e /\
    0 <= a /\ 0 <= b < 4 /\ 0 <= c < 25 /\ 0 <= e < 4 /\
    days_before_year y = DI400Y * a + DI100Y * b + DI4Y * c + 365 * e /\
    is_leap y = (e =? 3) && (negb (c =? 24) || (b =? 3)).
Proof.
  intros Hy.
  exists ((y - 1) / 400), ((y - 1) mod 400 / 100),
    ((y - 1) mod 400 mod 100 / 4), ((y - 1) mod 400 mod 100 mod 4).
  unfold days_before_year, is_leap, DI400Y, DI100Y, DI4Y.
  repeat split; Z.div_mod_to_equations; lia.
Qed.

Lemma digit (n d q r : Z) :
  0 <= r < d -> n = d * q + r -> n / d = q /\ n mod d = r.
Proof.
  intros Hr Hn. split.
  - symmetry. apply (Z.div_unique n d q r); lia.
  - symmetry. apply (Z.mod_unique n d q r); lia.
Qed.

Lemma ord2ymd_year (y k : Z) :
  1 <= y -> 0 <= k < 365 + leap_day y ->
  ord2ymd (days_before_year y + k + 1) =
    if k =? 365 then (y, 12, 31)
    else let '(m, d) := month_day (is_leap y) k in (y, m, d).
Proof.
  intros Hy Hk.
  destruct (year_digits y Hy)
    as (a & b & c & e & Hy1 & Ha & Hb & Hc & He & Hd & Hl).
  assert (Hleap : k = 365 -> e = 3 /\ (c <> 24 \/ b = 3)).
  { unfold leap_day in Hk. rewrite Hl in Hk.
    destruct (e =? 3) eqn:E3; destruct (c =? 24) eqn:E24;
      destruct (b =? 3) eqn:E100; simpl in Hk; lia. }
  assert (Hk' : 0 <= k <= 365)
    by (unfold leap_day in Hk; destruct (is_leap y); lia).
  unfold ord2ymd.
  replace (days_before_year y + k + 1 - 1) with (days_before_year y + k) by lia.
  rewrite Hd. unfold DI400Y, DI100Y, DI4Y in *.
  set (r1 := 36524 * b + 1461 * c + 365 * e + k).
  assert (Hr1 : 0 <= r1 < 146097) by (subst r1; lia).
  destruct (digit (146097 * a + 36524 * b + 1461 * c + 365 * e + k)
              146097 a r1 Hr1) as [-> ->]; [subst r1; lia|].
  destruct (Z.eq_dec r1 146096) as [Hlast|Hlast].
  - (* the last day of a 400-year cycle *)
    rewrite Hlast. change (146096 / 36524) with 4.
    rewrite Z.eqb_refl, orb_true_r.
    change (146096 mod 36524) with 0. simpl.
    assert (k = 365 /\ b = 3 /\ c = 24 /\ e = 3) as (-> & _) by (subst r1; lia).
    simpl. f_equal. f_equal. subst r1. lia.
  - set (r2 := 1461 * c + 365 * e + k).
    assert (Hr2 : 0 <= r2 < 36524) by (subst r1 r2; lia).
    destruct (digit r1 36524 b r2 Hr2) as [-> ->]; [subst r1 r2; lia|].
    set (r3 := 365 * e + k).
    assert (Hr3 : 0 <= r3 < 1461) by (subst r1 r2 r3; lia).
    destruct (digit r2 1461 c r3 Hr3) as [-> ->]; [subst r2 r3; lia|].
    destruct (k =? 365) eqn:K.
    + apply Z.eqb_eq in K.
      assert (r3 = 1460) as -> by (subst r3; lia).
      change (1460 / 365) with 4. simpl. f_equal. f_equal. lia.
    + apply Z.eqb_neq in K.
      destruct (digit r3 365 e k) as [-> ->]; [lia|subst r3; lia|].
      replace ((e =? 4) || (b =? 4)) with false by lia.
      rewrite <- Hl. unfold month_day.
      replace (a * 400 + 1 + (b * 100 + c * 4 + e)) with y by lia.
      destruct (k <? _); reflexivity.
Qed.

Lemma In_zrange (lo : Z) (n : nat) (z : Z) :
  lo <= z < lo + Z.of_nat n -> In z (zrange lo n).
Proof.
  intros H. unfold zrange. apply in_map_iff.
  exists (Z.to_nat (z - lo)). split; [lia|].
  apply in_seq. lia.
Qed.

Lemma month_day_table :
  forallb (fun l => forallb (month_day_inverts l) (zrange 1 12)) [true; false]
  = true.
Proof. vm_compute. reflexivity. Qed.

Lemma month_day_year_day (l : bool) (m d : Z) :
  1 <= m <= 12 -> 1 <= d <= month_length l m ->
  month_day l (year_day l m d) = (m, d).
Proof.
  intros Hm Hd.
  pose proof month_day_table as T.
  rewrite forallb_forall in T.
  assert (Hl : In l [true; false]) by (destruct l; simpl; auto).
  specialize (T l Hl). rewrite forallb_forall in T.
  specialize (T m (In_zrange 1 12 m ltac:(lia))).
  unfold month_day_inverts in T. rewrite forallb_forall in T.
  specialize (T d (In_zrange 1 (Z.to_nat (month_length l m)) d ltac:(lia))).
  destruct (month_day l (year_day l m d)) as [m' d'].
  apply andb_true_iff in T. destruct T as [T1 T2].
  apply Z.eqb_eq in T1, T2. congruence.
Qed.

Lemma year_day_bounds (l : bool) (m d : Z) :
  1 <= m <= 12 -> 1 <= d <= month_length l m ->
  0 <= year_day l m d < 365 + (if l then 1 else 0) /\
  (year_day l m d = 365 -> m = 12 /\ d = 31).
Proof.
  intros Hm Hd. unfold year_day, month_length in *.
  assert (M : m = 1 \/ m = 2 \/ m = 3 \/ m = 4 \/ m = 5 \/ m = 6 \/ m = 7 \/
              m = 8 \/ m = 9 \/ m = 10 \/ m = 11 \/ m = 12) by lia.
  destruct l; repeat (destruct M as [-> | M]); try subst m;
    cbn -[Z.add Z.sub] in *; lia.
Qed.

Lemma ord2ymd_ymd2ord (y m d : Z) :
  1 <= y -> 1 <= m <= 12 -> 1 <= d <= days_in_month y m ->
  ord2ymd (ymd2ord y m d) = (y, m, d).
Proof.
  intros Hy Hm Hd.
  change (days_in_month y m) with (month_length (is_leap y) m) in Hd.
  destruct (year_day_bounds (is_leap y) m d Hm Hd) as [Hk Hlast].
  unfold ymd2ord, days_before_month.
  replace (days_before_year y + _ + d)
    with (days_before_year y + year_day (is_leap y) m d + 1)
    by (unfold year_day; lia).
  rewrite ord2ymd_year by (unfold leap_day; assumption || lia).
  destruct (year_day (is_leap y) m d =? 365) eqn:K.
  - apply Z.eqb_eq in K. destruct (Hlast K) as [-> ->]. reflexivity.
  - rewrite month_day_year_day by assumption. reflexivity.
Qed.

Lemma days_before_next_year (y : Z) :
  days_before_year (y + 1) = days_before_year y + 365 + leap_day y.
Proof.
  unfold days_before_year, leap_day, is_leap.
  replace (y + 1 - 1) with y by lia.
  destruct (y mod 4 =? 0) eqn:E4; destruct (y mod 100 =? 0) eqn:E100;
    destruct (y mod 400 =? 0) eqn:E400; simpl;
    rewrite ?Z.eqb_eq, ?Z.eqb_neq in *; Z.div_mod_to_equations; lia.
Qed.

Lemma first_of_next_month (y m : Z) :
  1 <= m <= 12 ->
  (if m =? 12 then ymd2ord (y + 1) 1 1 else ymd2ord y (m + 1) 1)
  = ymd2ord y m 1 + days_in_month y m.
Proof.
  intros Hm. unfold ymd2ord, days_before_month, days_in_month.
  assert (M : m = 1 \/ m = 2 \/ m = 3 \/ m = 4 \/ m = 5 \/ m = 6 \/ m = 7 \/
              m = 8 \/ m = 9 \/ m = 10 \/ m = 11 \/ m = 12) by lia.
  repeat (destruct M as [-> | M]); try subst m;
    rewrite ?days_before_next_year; unfold leap_day;
    destruct (is_leap y); destruct (is_leap (y + 1));
    cbn -[days_before_year]; lia.
Qed.

End CalendarFacts.

(** ** The hours of the month *)

Section MonthRange.
Import Calendar.

Lemma ymd2ord_day (y m d j : Z) : ymd2ord y m d + j = ymd2ord y m (d + j).
Proof. unfold ymd2ord. lia. Qed.

Lemma ymd2ord_positive (y m : Z) :
  1 <= y -> 1 <= m <= 12 -> 1 <= ymd2ord y m 1.
Proof.
  intros Hy Hm. unfold ymd2ord, days_before_month, days_before_year.
  assert (0 <= DAYS_BEFORE_MONTH m).
  { assert (M : m = 1 \/ m = 2 \/ m = 3 \/ m = 4 \/ m = 5 \/ m = 6 \/ m = 7 \/
                m = 8 \/ m = 9 \/ m = 10 \/ m = 11 \/ m = 12) by lia.
    repeat (destruct M as [-> | M]); try subst m; cbn; lia. }
  destruct ((2 <? m) && is_leap y); Z.div_mod_to_equations; lia.
Qed.

Lemma days_in_month_bounds (y m : Z) :
  1 <= m <= 12 -> 28 <= days_in_month y m <= 31.
Proof.
  intros Hm. unfold days_in_month.
  assert (M : m = 1 \/ m = 2 \/ m = 3 \/ m = 4 \/ m = 5 \/ m = 6 \/ m = 7 \/
              m = 8 \/ m = 9 \/ m = 10 \/ m = 11 \/ m = 12) by lia.
  repeat (destruct M as [-> | M]); try subst m;
    destruct (is_leap y); cbn; lia.
Qed.

Lemma ymd2ord_below_max (y m : Z) :
  1 <= y <= 9998 -> 1 <= m <= 12 ->
  ymd2ord y m 1 + days_in_month y m <= MAXORDINAL.
Proof.
  intros Hy Hm. pose proof (days_in_month_bounds y m Hm) as Hd.
  unfold ymd2ord, days_before_month, days_before_year, MAXORDINAL.
  assert (DAYS_BEFORE_MONTH m <= 334).
  { assert (M : m = 1 \/ m = 2 \/ m = 3 \/ m = 4 \/ m = 5 \/ m = 6 \/ m = 7 \/
                m = 8 \/ m = 9 \/ m = 10 \/ m = 11 \/ m = 12) by lia.
    repeat (destruct M as [-> | M]); try subst m; cbn; lia. }
  destruct ((2 <? m) && is_leap y); Z.div_mod_to_equations; lia.
Qed.

(** The constructor accepts the first day of every month of the years
    1 to 9999. *)
Lemma datetime_new_first (y m : Z) :
  1 <= y <= 9999 -> 1 <= m <= 12 ->
  datetime_new y m 1 0 0 = Ok (mk_datetime y m 1 0 0 0).
Proof.
  intros Hy Hm. pose proof (days_in_month_bounds y m Hm) as Hd.
  unfold datetime_new, fits_c_int, MINYEAR, MAXYEAR.
  replace ((-2147483648 <=? y) && (y <=? 2147483647)) with true by lia.
  replace ((-2147483648 <=? m) && (m <=? 2147483647)) with true by lia.
  replace ((1 <=? y) && (y <=? 9999)) with true by lia.
  replace ((1 <=? m) && (m <=? 12)) with true by lia.
  replace ((1 <=? 1) && (1 <=? days_in_month y m)) with true by lia.
  reflexivity.
Qed.



(** One hour before the first day of the next month is hour 23 of the
    last day of this month. *)
Lemma last_hour_of_month (y m : Z) (first_of_next : datetime) :
  1 <= y <= 9998 -> 1 <= m <= 12 ->
  first_of_next = (if m =? 12 then mk_datetime (y + 1) 1 1 0 0 0
                   else mk_datetime y (m + 1) 1 0 0 0) ->
  datetime_sub_hours first_of_next 1
  = Ok (mk_datetime y m (days_in_month y m) 23 0 0).
Proof.
  intros Hy Hm ->.
  pose proof (days_in_month_bounds y m Hm) as Hd.
  pose proof (ymd2ord_positive y m ltac:(lia) Hm) as Hp.
  pose proof (ymd2ord_below_max y m Hy Hm) as Hmax.
  pose proof (CalendarFacts.first_of_next_month y m Hm) as Hn.
  unfold datetime_sub_hours.
  assert (Hs : datetime_seconds (if m =? 12 then mk_datetime (y + 1) 1 1 0 0 0
                                 else mk_datetime y (m + 1) 1 0 0 0)
               = (ymd2ord y m 1 + days_in_month y m) * 86400).
  { unfold datetime_seconds.
    destruct (m =? 12);
      cbn [dt_year dt_month dt_day dt_hour dt_minute dt_second]; lia. }
  rewrite Hs.
  set (ord := ymd2ord y m 1 + days_in_month y m) in *.
  destruct (CalendarFacts.digit (ord * 86400 - 1 * 3600) 86400 (ord - 1) 82800)
    as [-> ->]; [lia | lia |].
  replace ((0 <? ord - 1) && (ord - 1 <=? MAXORDINAL)) with true by lia.
  replace (ord - 1) with (ymd2ord y m (days_in_month y m))
    by (subst ord; unfold ymd2ord; lia).
  rewrite CalendarFacts.ord2ymd_ymd2ord by lia.
  reflexivity.
Qed.

Lemma date_range_hours (start end_ n : Z) :
  in_bounds start = true -> in_bounds end_ = true ->
  0 <= n -> end_ = start + 3600 * n - 3600 ->
  date_range start end_ = Ok (hours_from start (Z.to_nat n)).
Proof.
  intros Bs Be Hn ->. unfold date_range, hours_from.
  rewrite Bs, Be. cbn [andb].
  replace ((start + 3600 * n - 3600 - start) / 3600 + 1) with n;
    [reflexivity|].
  Z.div_mod_to_equations; lia.
Qed.


(** The hours of the months of the years 1678 to 2261 are timestamps. *)
Lemma month_in_bounds (y m s : Z) :
  1678 <= y <= 2261 -> 1 <= m <= 12 ->
  0 <= s < days_in_month y m * 86400 ->
  in_bounds (month_start y m + s) = true.
Proof.
  intros Hy Hm Hs. pose proof (days_in_month_bounds y m Hm) as Hd.
  assert (Hb : 0 <= DAYS_BEFORE_MONTH m <= 334).
  { assert (M : m = 1 \/ m = 2 \/ m = 3 \/ m = 4 \/ m = 5 \/ m = 6 \/
                m = 7 \/ m = 8 \/ m = 9 \/ m = 10 \/ m = 11 \/ m = 12)
      by lia.
    repeat (destruct M as [-> | M]); try subst m; cbn; lia. }
  assert (Tmin : Timestamp_min <= 612510 * 86400)
    by (vm_compute; discriminate).
  assert (Tmax : 825900 * 86400 <= Timestamp_max)
    by (vm_compute; discriminate).
  assert (Hlo : 612510 <= ymd2ord y m 1).
  { unfold ymd2ord, days_before_month, days_before_year.
    destruct ((2 <? m) && is_leap y); Z.div_mod_to_equations; lia. }
  assert (Hhi : ymd2ord y m 1 + days_in_month y m <= 825900).
  { unfold ymd2ord, days_before_month, days_before_year.
    destruct ((2 <? m) && is_leap y); Z.div_mod_to_equations; lia. }
  unfold in_bounds, month_start. lia.
Qed.

(** The end of the month is hour 23 of its last day. *)
Lemma end_date_last_hour (c : Config) :
  1 <= year c <= 9998 -> 1 <= month c <= 12 ->
  end_date c = Ok (mk_datetime (year c) (month c)
                     (days_in_month (year c) (month c)) 23 0 0).
Proof.
  intros Hy Hm. unfold end_date. destruct (month c =? 12) eqn:E.
  - rewrite datetime_new_first by lia. cbn [bind].
    apply last_hour_of_month; [lia | lia | rewrite E; reflexivity].
  - apply Z.eqb_neq in E.
    rewrite datetime_new_first by lia. cbn [bind].
    apply last_hour_of_month; [lia | lia |].
    replace (month c =? 12) with false by lia. reflexivity.
Qed.


(** For the years 1678 to 2261 the month's range is built without
    error and holds the hours of the month, from its first. *)
Lemma month_range_hours (c : Config) :
  1678 <= year c <= 2261 -> 1 <= month c <= 12 ->
  month_range c
  = Ok (hours_from (month_start (year c) (month c))
                   (Z.to_nat (month_hours (year c) (month c)))).
Proof.
  intros Hy Hm. unfold month_range, start_date.
  rewrite datetime_new_first by lia. cbn [bind].
  pose proof (days_in_month_bounds (year c) (month c) Hm) as Hd.
  rewrite end_date_last_hour by lia. cbn [bind].
  replace (Timestamp_of (mk_datetime (year c) (month c) 1 0 0 0))
    with (month_start (year c) (month c))
    by (unfold Timestamp_of, datetime_seconds, month_start;
        cbn [dt_year dt_month dt_day dt_hour dt_minute dt_second]; lia).
  assert (Hend : Timestamp_of
                   (mk_datetime (year c) (month c)
                      (days_in_month (year c) (month c)) 23 0 0)
                 = month_start (year c) (month c)
                   + 3600 * month_hours (year c) (month c) - 3600).
  { unfold Timestamp_of, datetime_seconds, month_start, month_hours, ymd2ord.
    cbn [dt_year dt_month dt_day dt_hour dt_minute dt_second]. lia. }
  apply date_range_hours.
  - rewrite <- (Z.add_0_r (month_start _ _)).
    apply month_in_bounds; lia.
  - rewrite Hend.
    replace (month_start (year c) (month c)
             + 3600 * month_hours (year c) (month c) - 3600)
      with (month_start (year c) (month c)
            + (3600 * month_hours (year c) (month c) - 3600)) by lia.
    apply month_in_bounds; unfold month_hours; lia.
  - unfold month_hours; lia.
  - exact Hend.
Qed.



End MonthRange.

(** ** The fields of a timestamp *)

Section TimestampFields.
Import Calendar.

Lemma ts_time_valid (ts : Timestamp) : valid_time (ts_time ts).
Proof.
  unfold valid_time, ts_time, ts_hour, ts_minute, ts_second.
  cbn [t_hour t_minute t_second].
  repeat split; Z.div_mod_to_equations; lia.
Qed.

Lemma seconds_of_ts_time (ts : Timestamp) :
  seconds_of (ts_time ts) = ts mod 86400.
Proof.
  unfold seconds_of, ts_time, ts_hour, ts_minute, ts_second.
  cbn [t_hour t_minute t_second].
  Z.div_mod_to_equations; lia.
Qed.

Lemma seconds_of_bounds (t : time) :
  valid_time t -> 0 <= seconds_of t < 86400.
Proof. unfold valid_time, seconds_of. lia. Qed.

(** The fields of hour number [i] of a month. *)
Lemma hour_fields (y m i : Z) :
  1 <= y -> 1 <= m <= 12 -> 0 <= i < month_hours y m ->
  let ts := month_start y m + 3600 * i in
  ts_year ts = y /\ ts_month ts = m /\ ts_day ts = 1 + i / 24 /\
  ts_hour ts = i mod 24 /\ ts_minute ts = 0 /\ ts_second ts = 0.
Proof.
  intros Hy Hm Hi ts. unfold month_hours in Hi.
  assert (Hord : ts_ordinal ts = ymd2ord y m (1 + i / 24)).
  { unfold ts_ordinal, ts, month_start. rewrite <- ymd2ord_day.
    Z.div_mod_to_equations; lia. }
  assert (Hymd : ord2ymd (ts_ordinal ts) = (y, m, 1 + i / 24)).
  { rewrite Hord. apply CalendarFacts.ord2ymd_ymd2ord; try lia.
    Z.div_mod_to_equations; lia. }
  unfold ts_year, ts_month, ts_day. rewrite Hymd. cbn [fst snd].
  unfold ts_hour, ts_minute, ts_second, ts, month_start.
  repeat split; Z.div_mod_to_equations; lia.
Qed.

End TimestampFields.

(** ** The order of times of day *)

Section TimeOrder.

Variables a b : time.
Hypothesis valid_a : valid_time a.
Hypothesis valid_b : valid_time b.

Lemma time_cmp_seconds : time_cmp a b = (seconds_of a ?= seconds_of b).
Proof.
  unfold valid_time, time_cmp, seconds_of in *.
  destruct (t_hour a ?= t_hour b) eqn:Eh;
    [destruct (t_minute a ?= t_minute b) eqn:Em|..];
    rewrite ?Z.compare_eq_iff, ?Z.compare_lt_iff, ?Z.compare_gt_iff in *;
    symmetry;
    rewrite ?Z.compare_eq_iff, ?Z.compare_lt_iff, ?Z.compare_gt_iff;
    try lia.
  destruct (t_second a ?= t_second b) eqn:Es;
    rewrite ?Z.compare_eq_iff, ?Z.compare_lt_iff, ?Z.compare_gt_iff in *; lia.
Qed.

Lemma time_le_seconds : time_le a b = (seconds_of a <=? seconds_of b).
Proof.
  unfold time_le. rewrite time_cmp_seconds. unfold Z.leb.
  destruct (seconds_of a ?= seconds_of b); reflexivity.
Qed.

Lemma time_lt_seconds : time_lt a b = (seconds_of a <? seconds_of b).
Proof.
  unfold time_lt. rewrite time_cmp_seconds. unfold Z.ltb.
  destruct (seconds_of a ?= seconds_of b); reflexivity.
Qed.

End TimeOrder.

(** The order of times is total and antisymmetric whatever the fields:
    no time is both at or after [a] and before [a]. *)
Lemma time_le_refl (a : time) : time_le a a = true.
Proof.
  unfold time_le, time_cmp. rewrite !Z.compare_refl. reflexivity.
Qed.

Lemma time_le_lt_false (a b : time) :
  time_le a b && time_lt b a = false.
Proof.
  unfold time_le, time_lt, time_cmp.
  rewrite (Z.compare_antisym (t_hour a) (t_hour b)).
  rewrite (Z.compare_antisym (t_minute a) (t_minute b)).
  rewrite (Z.compare_antisym (t_second a) (t_second b)).
  destruct (t_hour a ?= t_hour b); cbn; try reflexivity.
  destruct (t_minute a ?= t_minute b); cbn; try reflexivity.
  destruct (t_second a ?= t_second b); reflexivity.
Qed.

(** ** The operating window *)

Lemma in_hours_seconds (s e cur : time) :
  valid_time s -> valid_time e -> valid_time cur ->
  in_hours s e cur =
    if seconds_of s <=? seconds_of e
    then (seconds_of s <=? seconds_of cur) && (seconds_of cur <? seconds_of e)
    else (seconds_of s <=? seconds_of cur) || (seconds_of cur <? seconds_of e).
Proof.
  intros Hs He Hc. unfold in_hours, time_ge.
  rewrite !time_le_seconds, !time_lt_seconds by assumption.
  reflexivity.
Qed.

Lemma in_hours_window (s e cur : time) :
  valid_time s -> valid_time e -> valid_time cur ->
  in_hours s e cur = true <-> in_window s e cur.
Proof.
  intros Hs He Hc. rewrite in_hours_seconds by assumption.
  unfold in_window.
  destruct (seconds_of s <=? seconds_of e) eqn:E; lia.
Qed.

(** Inside the window the current second, moved to the next day when
    needed, lies between the start and the end of the window. *)
Lemma window_position (c : Config) (ts : Timestamp) :
  valid_time (operating_start c) -> valid_time (operating_end c) ->
  in_hours (operating_start c) (operating_end c) (ts_time ts) = true ->
  start_seconds c <= current_seconds c ts < end_seconds c.
Proof.
  intros Hs He Hin.
  rewrite in_hours_seconds in Hin by auto using ts_time_valid.
  pose proof (seconds_of_bounds _ Hs). pose proof (seconds_of_bounds _ He).
  pose proof (seconds_of_bounds _ (ts_time_valid ts)) as Hc.
  unfold current_seconds, end_seconds, start_seconds.
  change (ts_hour ts * 3600 + ts_minute ts * 60 + ts_second ts)
    with (seconds_of (ts_time ts)).
  set (s := seconds_of (operating_start c)) in *.
  set (e := seconds_of (operating_end c)) in *.
  set (cur := seconds_of (ts_time ts)) in *.
  destruct (s <=? e) eqn:E; destruct (e <=? s) eqn:E';
    destruct (cur <? s) eqn:E''; lia.
Qed.

(** ** Rational arithmetic of the profile *)

Section Rationals.
Local Open Scope Q_scope.

Lemma Qleb_le (a b : Q) : Qleb a b = true <-> a <= b.
Proof.
  unfold Qleb. rewrite Qle_alt.
  destruct (a ?= b); split; congruence.
Qed.

Lemma Qleb_gt (a b : Q) : Qleb a b = false <-> b < a.
Proof.
  unfold Qleb. rewrite Qgt_alt.
  destruct (a ?= b); split; congruence.
Qed.

Lemma Qltb_lt (a b : Q) : Qltb a b = true <-> a < b.
Proof.
  unfold Qltb. rewrite Qlt_alt.
  destruct (a ?= b); split; congruence.
Qed.

Lemma Qltb_ge (a b : Q) : Qltb a b = false <-> b <= a.
Proof.
  rewrite <- Bool.not_true_iff_false, Qltb_lt. split.
  - apply Qnot_lt_le.
  - apply Qle_not_lt.
Qed.

Lemma py_max_cases (a b : Q) :
  (a < b /\ py_max a b = b) \/ (b <= a /\ py_max a b = a).
Proof.
  unfold py_max. destruct (a ?= b) eqn:E.
  - right. split; [|reflexivity]. apply Qeq_alt in E. rewrite E. apply Qle_refl.
  - left. split; [|reflexivity]. apply Qlt_alt. exact E.
  - right. split; [|reflexivity]. apply Qlt_le_weak, Qgt_alt. exact E.
Qed.

Lemma py_max_l (a b : Q) : a <= py_max a b.
Proof. destruct (py_max_cases a b) as [[H ->] | [H ->]]; lra. Qed.

Lemma py_max_r (a b : Q) : b <= py_max a b.
Proof. destruct (py_max_cases a b) as [[H ->] | [H ->]]; lra. Qed.

(** A quotient by a positive denominator at least as large as the
    numerator lies in the unit interval. *)
Lemma unit_quotient (n d : Q) : 0 <= n -> n <= d -> 0 < d -> 0 <= n / d <= 1.
Proof.
  intros Hn Hnd Hd. split.
  - apply Qle_shift_div_l; lra.
  - apply Qle_shift_div_r; lra.
Qed.

(** A point between two values, by its fraction of the way. *)
Lemma between_rising (b p f : Q) :
  0 <= f <= 1 -> Qmin b p <= b + (p - b) * f <= Qmax b p.
Proof.
  intros Hf.
  destruct (Q.min_spec b p) as [[H ->] | [H ->]];
    destruct (Q.max_spec b p) as [[H' ->] | [H' ->]]; split; nra.
Qed.

Lemma between_falling (b p f : Q) :
  0 <= f <= 1 -> Qmin b p <= p - (p - b) * f <= Qmax b p.
Proof.
  intros Hf.
  destruct (Q.min_spec b p) as [[H ->] | [H ->]];
    destruct (Q.max_spec b p) as [[H' ->] | [H' ->]]; split; nra.
Qed.

(** *** Rounding *)

Lemma round_half_even_Z (z : Z) : round_half_even (inject_Z z) = z.
Proof.
  unfold round_half_even. rewrite Qfloor_Z.
  replace (inject_Z z - inject_Z z ?= 1 # 2) with Lt; [reflexivity|].
  symmetry. apply (proj1 (Qlt_alt _ _)). lra.
Qed.

Lemma round_half_even_nonneg (q : Q) : 0 <= q -> (0 <= round_half_even q)%Z.
Proof.
  intros Hq. unfold round_half_even.
  assert (H0 : (0 <= Qfloor q)%Z).
  { change 0%Z with (Qfloor 0). apply Qfloor_resp_le. exact Hq. }
  destruct (q - inject_Z (Qfloor q) ?= 1 # 2); [destruct (Z.even _)|..]; lia.
Qed.


Lemma round3_nonneg (x : Q) : 0 <= x -> 0 <= round3 x.
Proof.
  intros Hx. unfold round3.
  apply Qle_shift_div_l; [lra|].
  rewrite Qmult_0_l. change 0 with (inject_Z 0). rewrite <- Zle_Qle.
  apply round_half_even_nonneg. lra.
Qed.

Lemma round_half_even_compat (x y : Q) :
  x == y -> round_half_even x = round_half_even y.
Proof.
  intros H. unfold round_half_even.
  rewrite (Qfloor_comp x y H).
  rewrite (Qcompare_comp (x - inject_Z (Qfloor y)) (y - inject_Z (Qfloor y))
             ltac:(rewrite H; reflexivity) (1 # 2) (1 # 2) (Qeq_refl _)).
  reflexivity.
Qed.

Lemma round3_compat (x y : Q) : x == y -> round3 x == round3 y.
Proof.
  intros H. unfold round3.
  rewrite (round_half_even_compat (x * 1000) (y * 1000)); [reflexivity|].
  rewrite H. reflexivity.
Qed.

(** Rounding leaves a value of at most three decimals as it is. *)
Lemma round3_fixed (x : Q) : three_decimals x -> round3 x == x.
Proof.
  intros [z Hz]. unfold round3.
  rewrite (round_half_even_compat _ _ Hz), round_half_even_Z.
  rewrite <- Hz. field.
Qed.

End Rationals.

(** ** The triangular profile *)

Section Profile.
Local Open Scope Q_scope.

Variable c : Config.
Hypothesis valid_start : valid_time (operating_start c).
Hypothesis valid_end : valid_time (operating_end c).

(** The current second between the start and the end, as rationals, and
    the midpoint halfway. *)
Lemma window_position_Q (ts : Timestamp) :
  is_operating c ts = true ->
  inject_Z (start_seconds c) <= inject_Z (current_seconds c ts)
  /\ inject_Z (current_seconds c ts) < inject_Z (end_seconds c)
  /\ 2 * midpoint c == inject_Z (start_seconds c) + inject_Z (end_seconds c).
Proof.
  intros Hop. unfold is_operating in Hop.
  apply andb_true_iff in Hop. destruct Hop as [_ Hin].
  destruct (window_position c ts valid_start valid_end Hin) as [H1 H2].
  repeat split.
  - rewrite <- Zle_Qle. exact H1.
  - rewrite <- Zlt_Qlt. exact H2.
  - unfold midpoint. rewrite inject_Z_plus. field.
Qed.

(** The interpolation fraction lies in the unit interval. *)
Lemma frac_unit (ts : Timestamp) :
  is_operating c ts = true -> 0 <= frac c ts <= 1.
Proof.
  intros Hop. destruct (window_position_Q ts Hop) as (Hs & He & Hm).
  unfold frac.
  set (S := inject_Z (start_seconds c)) in *.
  set (E := inject_Z (end_seconds c)) in *.
  set (C := inject_Z (current_seconds c ts)) in *.
  set (M := midpoint c) in *.
  destruct (Qleb C M) eqn:Hhalf.
  - apply Qleb_le in Hhalf.
    pose proof (py_max_l (M - S) 1). pose proof (py_max_r (M - S) 1).
    apply unit_quotient; lra.
  - apply Qleb_gt in Hhalf.
    pose proof (py_max_l (E - M) 1). pose proof (py_max_r (E - M) 1).
    apply unit_quotient; lra.
Qed.

(** Computed exactly, the load of an operating hour lies between the
    base and the peak load, whichever is the larger. *)
Lemma triangular_load_between (ts : Timestamp) :
  is_operating c ts = true ->
  Qmin (base_load c) (peak_load c) <= triangular_load c ts
  <= Qmax (base_load c) (peak_load c).
Proof.
  intros Hop. pose proof (frac_unit ts Hop) as Hf.
  unfold triangular_load.
  destruct (Qleb _ _).
  - apply between_rising. exact Hf.
  - apply between_falling. exact Hf.
Qed.

Lemma pre_noise_load_between (ts : Timestamp) :
  Qmin (base_load c) (peak_load c) <= pre_noise_load c ts
  <= Qmax (base_load c) (peak_load c).
Proof.
  unfold pre_noise_load. destruct (is_operating c ts) eqn:Hop.
  - apply triangular_load_between. exact Hop.
  - split; [apply Q.le_min_l | apply Q.le_max_l].
Qed.

Lemma pre_noise_load_nonneg (ts : Timestamp) :
  0 <= base_load c -> 0 <= peak_load c -> 0 <= pre_noise_load c ts.
Proof.
  intros Hb Hp. destruct (pre_noise_load_between ts) as [H _].
  apply Qle_trans with (2 := H). apply Q.min_glb; assumption.
Qed.

End Profile.

(** ** The loop over the hours *)

Section Loop.

Variable Generator : Type.
Variable seeded : Z -> Generator.
Variable standard_normal : Generator -> Q * Generator.
Variable c : Config.

Lemma loop_body_row (rng : Generator) (ts : Timestamp) :
  loop_body standard_normal c rng ts
  = (row_of c ts
       (fst (apply_noise standard_normal c rng (pre_noise_load c ts))),
     snd (apply_noise standard_normal c rng (pre_noise_load c ts))).
Proof.
  unfold loop_body, row_of.
  destruct (apply_noise standard_normal c rng (pre_noise_load c ts));
    reflexivity.
Qed.

(** Without noise the random source is left alone. *)
Lemma apply_noise_quiet (rng : Generator) (load : Q) :
  Qltb 0 (random_pct c) = false ->
  apply_noise standard_normal c rng load = (load, rng).
Proof. intros H. unfold apply_noise. rewrite H. reflexivity. Qed.

(** With noise exactly one sample is drawn. *)
Lemma apply_noise_noisy (rng : Generator) (load : Q) :
  Qltb 0 (random_pct c) = true ->
  apply_noise standard_normal c rng load
  = (let z := fst (standard_normal rng) in
     py_max (load + (0 + random_pct c / 100 * z) * load) 0,
     snd (standard_normal rng)).
Proof.
  intros H. unfold apply_noise, normal. rewrite H.
  destruct (standard_normal rng); reflexivity.
Qed.

(** The rows are appended to those already there. *)
Lemma rows_loop_app (range : list Timestamp) :
  forall (rng : Generator) (acc : list Row),
    rows_loop standard_normal c rng range acc
    = (acc ++ fst (rows_loop standard_normal c rng range []),
       snd (rows_loop standard_normal c rng range [])).
Proof.
  induction range as [|ts rest IH]; intros rng acc; cbn [rows_loop].
  - rewrite app_nil_r. reflexivity.
  - destruct (loop_body standard_normal c rng ts) as [row rng'].
    rewrite (IH rng' (acc ++ [row])), (IH rng' ([] ++ [row])).
    cbn [fst snd]. rewrite <- app_assoc. reflexivity.
Qed.

Lemma rows_loop_cons (rng : Generator) (ts : Timestamp)
  (rest : list Timestamp) :
  let step := loop_body standard_normal c rng ts in
  rows_loop standard_normal c rng (ts :: rest) []
  = (fst step :: fst (rows_loop standard_normal c (snd step) rest []),
     snd (rows_loop standard_normal c (snd step) rest [])).
Proof.
  cbv zeta. cbn [rows_loop].
  destruct (loop_body standard_normal c rng ts) as [row rng'].
  rewrite rows_loop_app. reflexivity.
Qed.

(** One row per hour, in the order of the range. *)
Lemma rows_loop_datetimes (range : list Timestamp) :
  forall rng,
    map Datetime (fst (rows_loop standard_normal c rng range [])) = range.
Proof.
  induction range as [|ts rest IH]; intros rng; [reflexivity|].
  rewrite rows_loop_cons. cbn [fst map]. rewrite IH.
  rewrite loop_body_row. reflexivity.
Qed.

(** Every row is the row of its own hour, for the load that the noise
    step gave at some state of the random source. *)
Lemma rows_loop_rows (range : list Timestamp) :
  forall rng r, In r (fst (rows_loop standard_normal c rng range [])) ->
    In (Datetime r) range /\
    exists rng0,
      r = row_of c (Datetime r)
            (fst (apply_noise standard_normal c rng0
                    (pre_noise_load c (Datetime r)))).
Proof.
  induction range as [|ts rest IH]; intros rng r Hin; [contradiction|].
  rewrite rows_loop_cons in Hin. cbn [fst] in Hin.
  destruct Hin as [<- | Hin].
  - rewrite loop_body_row. cbn [fst Datetime row_of].
    split; [left; reflexivity | exists rng; reflexivity].
  - destruct (IH _ _ Hin) as [H1 H2]. split; [right; exact H1 | exact H2].
Qed.

(** Without noise the rows are those of [quiet_row] and the random
    source ends in the state it started in. *)
Lemma rows_loop_quiet (range : list Timestamp) :
  Qltb 0 (random_pct c) = false ->
  forall rng,
    rows_loop standard_normal c rng range [] = (map (quiet_row c) range, rng).
Proof.
  intros Hq. induction range as [|ts rest IH]; intros rng; [reflexivity|].
  rewrite rows_loop_cons, loop_body_row, apply_noise_quiet by exact Hq.
  cbn [fst snd]. rewrite IH. reflexivity.
Qed.

(** With noise, hour number [i] takes sample number [i] of the source,
    which ends one draw per hour further. *)
Lemma rows_loop_noisy (range : list Timestamp) :
  Qltb 0 (random_pct c) = true ->
  forall rng,
    rows_loop standard_normal c rng range []
    = (map (fun p => row_of c (fst p) (noisy_load c (fst p) (snd p)))
           (combine range (samples standard_normal rng (List.length range))),
       advance standard_normal rng (List.length range)).
Proof.
  intros Hn. induction range as [|ts rest IH]; intros rng; [reflexivity|].
  rewrite rows_loop_cons, loop_body_row, apply_noise_noisy by exact Hn.
  cbn [fst snd]. rewrite IH.
  cbn [List.length samples advance].
  destruct (standard_normal rng) as [z rng']. reflexivity.
Qed.

(** A run that returns rows has built the range of the month and looped
    over it from the initial state of the random source. *)
Lemma run_rows (fresh : Generator) (rows : list Row) :
  generate seeded standard_normal c fresh = Ok rows ->
  exists range,
    month_range c = Ok range /\
    rows = fst (rows_loop standard_normal c (default_rng seeded c fresh)
                  range []).
Proof.
  unfold generate, run.
  destruct (month_range c) as [range|e]; cbn [bind]; [|discriminate].
  intros H. injection H as <-. exists range. split; reflexivity.
Qed.

Lemma generate_rows (fresh : Generator) (range : list Timestamp) :
  month_range c = Ok range ->
  generate seeded standard_normal c fresh
  = Ok (fst (rows_loop standard_normal c (default_rng seeded c fresh)
               range [])).
Proof.
  intros H. unfold generate, run. rewrite H. reflexivity.
Qed.

(** Every row of a run is the row of its own hour. *)
Lemma generated_row (fresh : Generator) (rows : list Row) (r : Row) :
  generate seeded standard_normal c fresh = Ok rows -> In r rows ->
  exists rng0,
    r = row_of c (Datetime r)
          (fst (apply_noise standard_normal c rng0
                  (pre_noise_load c (Datetime r)))).
Proof.
  intros Hg Hin. destruct (run_rows fresh rows Hg) as (range & _ & ->).
  destruct (rows_loop_rows range _ r Hin) as [_ H]. exact H.
Qed.

(** The load after the noise step is not negative when the load before
    it is not. *)
Lemma apply_noise_nonneg (rng : Generator) (load : Q) :
  (0 <= load)%Q -> (0 <= fst (apply_noise standard_normal c rng load))%Q.
Proof.
  intros Hl. destruct (Qltb 0 (random_pct c)) eqn:E.
  - rewrite apply_noise_noisy by exact E. cbn [fst]. apply py_max_r.
  - rewrite apply_noise_quiet by exact E. exact Hl.
Qed.

End Loop.

(** ** Rows and hours by position *)

Lemma nth_error_hours_from (start : Timestamp) (n i : nat) :
  nth_error (hours_from start n) i
  = if (i <? n)%nat then Some (start + 3600 * Z.of_nat i) else None.
Proof.
  unfold hours_from. rewrite nth_error_map, nth_error_seq.
  destruct (i <? n)%nat; reflexivity.
Qed.

Lemma length_hours_from (start : Timestamp) (n : nat) :
  List.length (hours_from start n) = n.
Proof. unfold hours_from. rewrite length_map, length_seq. reflexivity. Qed.

Lemma nth_error_datetime (rows : list Row) (i : nat) (r : Row) :
  nth_error rows i = Some r ->
  nth_error (map Datetime rows) i = Some (Datetime r).
Proof. intros H. rewrite nth_error_map, H. reflexivity. Qed.

(** The calendar fields and the weekday of a row are those of its
    timestamp, and its flag is the operating test of that hour. *)
Lemma row_of_fields (c : Config) (r : Row) (load : Q) :
  r = row_of c (Datetime r) load ->
  Year r = ts_year (Datetime r) /\ Month r = ts_month (Datetime r) /\
  Day r = ts_day (Datetime r) /\ Hour r = ts_hour (Datetime r) /\
  Weekday r = strftime_A (Datetime r) /\
  Operating r = is_operating c (Datetime r) /\
  Load_kW r = round3 load.
Proof. intros H. rewrite H. cbn. repeat split; reflexivity. Qed.

Lemma is_operating_day_In (c : Config) (ts : Timestamp) :
  is_operating_day c ts = true <-> In (strftime_A ts) (weekdays c).
Proof.
  unfold is_operating_day. rewrite existsb_exists. split.
  - intros (d & Hin & Heq). apply String.eqb_eq in Heq. subst d. exact Hin.
  - intros Hin. exists (strftime_A ts). split; [exact Hin|].
    apply String.eqb_refl.
Qed.

Lemma py_max_Qmax (a b : Q) : (py_max a b == Qmax a b)%Q.
Proof.
  destruct (py_max_cases a b) as [[H ->] | [H ->]].
  - rewrite Q.max_r; [reflexivity | apply Qlt_le_weak; exact H].
  - rewrite Q.max_l; [reflexivity | exact H].
Qed.

(** ** The generated sequence *)

Section Sequence.

Variable Generator : Type.
Variable seeded : Z -> Generator.
Variable standard_normal : Generator -> Q * Generator.

(** For a month of the years 1678 to 2261 the run returns one row per
    hour of the month; row number [i] is hour [i mod 24] of day
    [1 + i / 24]. *)
Lemma month_rows_by_position (c : Config) (fresh : Generator) :
  1678 <= year c <= 2261 -> 1 <= month c <= 12 ->
  exists rows,
    generate seeded standard_normal c fresh = Ok rows /\
    List.length rows = Z.to_nat (month_hours (year c) (month c)) /\
    forall i r, nth_error rows i = Some r ->
      Datetime r = month_start (year c) (month c) + 3600 * Z.of_nat i /\
      Year r = year c /\ Month r = month c /\
      Day r = 1 + Z.of_nat i / 24 /\ Hour r = Z.of_nat i mod 24.
Proof.
  intros Hy Hm.
  pose proof (month_range_hours c Hy Hm) as Hrange.
  set (n := Z.to_nat (month_hours (year c) (month c))) in *.
  set (start := month_start (year c) (month c)) in *.
  set (rows := fst (rows_loop standard_normal c (default_rng seeded c fresh)
                      (hours_from start n) [])).
  assert (Hdt : map Datetime rows = hours_from start n)
    by apply rows_loop_datetimes.
  exists rows. split; [apply generate_rows; exact Hrange|]. split.
  - rewrite <- (length_map Datetime), Hdt. apply length_hours_from.
  - intros i r Hi.
    pose proof (nth_error_datetime rows i r Hi) as Hts.
    rewrite Hdt, nth_error_hours_from in Hts.
    destruct (i <? n)%nat eqn:Hlt; [|discriminate].
    injection Hts as Hts. apply Nat.ltb_lt in Hlt.
    destruct (rows_loop_rows _ standard_normal c _ _ r (nth_error_In _ _ Hi))
      as [_ [rng0 Hrow]].
    destruct (row_of_fields c r _ Hrow) as (Hyr & Hmo & Hda & Hho & _).
    rewrite Hyr, Hmo, Hda, Hho, <- Hts.
    pose proof (days_in_month_bounds (year c) (month c) Hm) as Hd.
    assert (Hin : 0 <= Z.of_nat i < month_hours (year c) (month c))
      by (subst n; unfold month_hours in *; lia).
    destruct (hour_fields (year c) (month c) (Z.of_nat i) ltac:(lia) Hm Hin)
      as (H1 & H2 & H3 & H4 & _).
    subst start. repeat split; assumption.
Qed.


End Sequence.

(** * The claims of the specification *)

Section Claims.

Variable Generator : Type.
Variable seeded : Z -> Generator.
Variable standard_normal : Generator -> Q * Generator.

(** C3. For every year in 2000 to 2100 and month in 1 to 12 the run
    returns exactly [days_in_month * 24] rows (29 * 24 for the February
    of a leap year; December takes its end from the next January), in
    chronological order: row [i] is hour [i mod 24] of day [1 + i / 24]
    of the month, each row one hour after the one before it, the first
    at day 1 hour 0 and the last at hour 23 of the last day, no hour of
    the month missing and none twice. *)
Theorem month_coverage (c : Config) (fresh : Generator) :
  2000 <= year c <= 2100 -> 1 <= month c <= 12 ->
  let days := Calendar.days_in_month (year c) (month c) in
  exists rows,
    generate seeded standard_normal c fresh = Ok rows /\
    Z.of_nat (List.length rows) = days * 24 /\
    (Calendar.is_leap (year c) = true -> month c = 2 ->
     List.length rows = (29 * 24)%nat) /\
    (forall i r, nth_error rows i = Some r ->
       Datetime r = month_start (year c) (month c) + 3600 * Z.of_nat i /\
       Year r = year c /\ Month r = month c /\
       Day r = 1 + Z.of_nat i / 24 /\ Hour r = Z.of_nat i mod 24) /\
    (forall i r r', nth_error rows i = Some r ->
       nth_error rows (S i) = Some r' -> Datetime r' = Datetime r + 3600) /\
    (exists first, nth_error rows 0 = Some first /\
       Day first = 1 /\ Hour first = 0) /\
    (exists last, nth_error rows (List.length rows - 1) = Some last /\
       Day last = days /\ Hour last = 23) /\
    (forall d h, 1 <= d <= days -> 0 <= h < 24 ->
       exists r, In r rows /\ Day r = d /\ Hour r = h) /\
    NoDup (map Datetime rows).
Proof.
  intros Hy Hm days.
  destruct (month_rows_by_position _ seeded standard_normal c fresh
              ltac:(lia) Hm) as (rows & Hgen & Hlen & Hpos).
  pose proof (days_in_month_bounds (year c) (month c) Hm) as Hd.
  fold days in Hd. unfold month_hours in Hlen. fold days in Hlen.
  assert (Hat : forall i, (i < List.length rows)%nat ->
                          exists r, nth_error rows i = Some r).
  { intros i Hi. destruct (nth_error rows i) as [r|] eqn:E; [eauto|].
    apply nth_error_None in E. lia. }
  exists rows. repeat split.
  - exact Hgen.
  - lia.
  - intros Hleap Hfeb. rewrite Hlen. subst days.
    unfold Calendar.days_in_month. rewrite Hfeb, Hleap. reflexivity.
  - apply (Hpos i r H).
  - apply (Hpos i r H).
  - apply (Hpos i r H).
  - apply (Hpos i r H).
  - apply (Hpos i r H).
  - intros i r r' Hi Hi'.
    destruct (Hpos _ _ Hi) as [-> _]. destruct (Hpos _ _ Hi') as [-> _]. lia.
  - destruct (Hat 0%nat ltac:(lia)) as [r Hr]. exists r.
    destruct (Hpos _ _ Hr) as (_ & _ & _ & H3 & H4).
    repeat split; [exact Hr | rewrite H3 | rewrite H4]; reflexivity.
  - destruct (Hat (List.length rows - 1)%nat ltac:(lia)) as [r Hr]. exists r.
    destruct (Hpos _ _ Hr) as (_ & _ & _ & H3 & H4).
    repeat split; [exact Hr | rewrite H3 | rewrite H4];
      Z.div_mod_to_equations; lia.
  - intros d h Hday Hh.
    destruct (Hat (Z.to_nat ((d - 1) * 24 + h)) ltac:(lia)) as [r Hr].
    exists r. destruct (Hpos _ _ Hr) as (_ & _ & _ & H3 & H4).
    repeat split; [exact (nth_error_In _ _ Hr) | rewrite H3 | rewrite H4];
      Z.div_mod_to_equations; lia.
  - apply NoDup_nth_error. intros i j Hi Hij.
    rewrite length_map in Hi.
    destruct (Hat i Hi) as [r Hr].
    rewrite (nth_error_datetime _ _ _ Hr) in Hij. symmetry in Hij.
    rewrite nth_error_map in Hij.
    destruct (nth_error rows j) as [r'|] eqn:Hr'; [|discriminate].
    injection Hij as Hij.
    destruct (Hpos _ _ Hr) as [Hts _]. destruct (Hpos _ _ Hr') as [Hts' _].
    lia.
Qed.

(** C10, amended. For every operating hour the interpolation fraction
    lies in [0, 1], for windows that wrap past midnight or not and for
    half-windows so short that the guard [max(., 1)] applies, and the
    load before the noise is the base load plus the fraction of the
    difference to the peak load in the rising half, the peak load less
    that fraction of the difference in the falling half, for a peak
    above or below the base. *)
Theorem operating_fraction_in_unit_interval (c : Config) (ts : Timestamp) :
  valid_time (operating_start c) -> valid_time (operating_end c) ->
  is_operating c ts = true ->
  (0 <= frac c ts <= 1)%Q /\
  ((inject_Z (current_seconds c ts) <= midpoint c)%Q /\
   pre_noise_load c ts
   = (base_load c + (peak_load c - base_load c) * frac c ts)%Q
   \/ (midpoint c < inject_Z (current_seconds c ts))%Q /\
      pre_noise_load c ts
      = (peak_load c - (peak_load c - base_load c) * frac c ts)%Q).
Proof.
  intros Hs He Hop. split.
  - apply frac_unit; assumption.
  - unfold pre_noise_load, triangular_load. rewrite Hop.
    destruct (Qleb (inject_Z (current_seconds c ts)) (midpoint c)) eqn:E.
    + left. split; [apply Qleb_le; exact E | reflexivity].
    + right. split; [apply Qleb_gt; exact E | reflexivity].
Qed.

(** C6. With a base and a peak load that are not negative, the load of
    every row of every run is not negative, whatever the samples of the
    random source: the load after the noise is clamped at 0 before it is
    rounded. *)
Theorem load_never_negative (c : Config) (fresh : Generator)
  (rows : list Row) (r : Row) :
  valid_time (operating_start c) -> valid_time (operating_end c) ->
  (0 <= base_load c)%Q -> (0 <= peak_load c)%Q ->
  generate seeded standard_normal c fresh = Ok rows -> In r rows ->
  (0 <= Load_kW r)%Q.
Proof.
  intros Hs He Hb Hp Hgen Hin.
  destruct (generated_row _ seeded standard_normal c fresh rows r Hgen Hin)
    as [rng0 Hrow].
  destruct (row_of_fields c r _ Hrow) as (_ & _ & _ & _ & _ & _ & ->).
  apply round3_nonneg, apply_noise_nonneg, pre_noise_load_nonneg; assumption.
Qed.



(** C4. Two runs on the same configuration with a seed other than 0 give
    the same rows, whatever entropy the system would have supplied.  The
    random source is seeded once; with [random_pct > 0] hour number [i]
    of the month takes sample number [i] of the source and the source
    ends one draw per hour after its initial state; with
    [random_pct = 0] the source is left in its initial state and the
    rows are those of [quiet_row], a function of the configuration and
    the hour alone. *)
Theorem seeded_runs_agree (c : Config) :
  (seed c <> 0 ->
   forall fresh1 fresh2,
     default_rng seeded c fresh1 = seeded (seed c) /\
     run seeded standard_normal c fresh1
     = run seeded standard_normal c fresh2 /\
     generate seeded standard_normal c fresh1
     = generate seeded standard_normal c fresh2) /\
  (forall fresh range,
     month_range c = Ok range ->
     let rng := default_rng seeded c fresh in
     ((0 < random_pct c)%Q ->
      run seeded standard_normal c fresh
      = Ok (map (fun p => row_of c (fst p) (noisy_load c (fst p) (snd p)))
                (combine range
                   (samples standard_normal rng (List.length range))),
            advance standard_normal rng (List.length range))) /\
     ((random_pct c == 0)%Q ->
      run seeded standard_normal c fresh = Ok (map (quiet_row c) range, rng)
      /\ generate seeded standard_normal c fresh
         = Ok (map (quiet_row c) range))).
Proof.
  split.
  - intros Hseed fresh1 fresh2.
    assert (Hrng : forall fresh, default_rng seeded c fresh = seeded (seed c)).
    { intros fresh. unfold default_rng.
      destruct (seed c =? 0) eqn:E; [apply Z.eqb_eq in E; contradiction|].
      reflexivity. }
    split; [apply Hrng|].
    assert (Hrun : run seeded standard_normal c fresh1
                   = run seeded standard_normal c fresh2)
      by (unfold run; rewrite !Hrng; reflexivity).
    split; [exact Hrun | unfold generate; rewrite Hrun; reflexivity].
  - intros fresh range Hrange rng. split.
    + intros Hpos. apply Qltb_lt in Hpos.
      unfold run. rewrite Hrange. cbn [bind].
      rewrite rows_loop_noisy by exact Hpos. reflexivity.
    + intros Hzero.
      assert (Hq : Qltb 0 (random_pct c) = false)
        by (apply Qltb_ge; rewrite Hzero; apply Qle_refl).
      unfold generate, run. rewrite Hrange. cbn [bind].
      rewrite rows_loop_quiet by exact Hq. split; reflexivity.
Qed.

(** C5, amended. Without noise every row that is not operating carries
    the base load rounded to three decimals, which is the base load
    itself when that has at most three decimals. *)
Theorem baseline_outside_operation (c : Config) (fresh : Generator)
  (rows : list Row) (r : Row) :
  (random_pct c == 0)%Q ->
  generate seeded standard_normal c fresh = Ok rows -> In r rows ->
  Operating r = false ->
  Load_kW r = round3 (base_load c) /\
  (three_decimals (base_load c) -> (Load_kW r == base_load c)%Q).
Proof.
  intros Hzero Hgen Hin Hop.
  assert (Hq : Qltb 0 (random_pct c) = false)
    by (apply Qltb_ge; rewrite Hzero; apply Qle_refl).
  destruct (generated_row _ seeded standard_normal c fresh rows r Hgen Hin)
    as [rng0 Hrow].
  rewrite apply_noise_quiet in Hrow by exact Hq. cbn [fst] in Hrow.
  destruct (row_of_fields c r _ Hrow) as (_ & _ & _ & _ & _ & Hflag & Hload).
  unfold pre_noise_load in Hload. rewrite <- Hflag, Hop in Hload.
  split; [exact Hload|].
  intros H3. rewrite Hload. apply round3_fixed. exact H3.
Qed.

(** The two halves of the profile, with the guard written as a maximum. *)
Lemma triangular_load_halves (c : Config) (ts : Timestamp) :
  let cur := inject_Z (current_seconds c ts) in
  let s := inject_Z (start_seconds c) in
  let e := inject_Z (end_seconds c) in
  let m := midpoint c in
  ((cur <= m -> triangular_load c ts ==
      base_load c + (peak_load c - base_load c) * ((cur - s) / Qmax (m - s) 1))
   /\ (m < cur -> triangular_load c ts ==
      peak_load c
      - (peak_load c - base_load c) * ((cur - m) / Qmax (e - m) 1)))%Q.
Proof.
  intros cur s e m. unfold triangular_load, frac. fold cur s e m. split.
  - intros H. apply Qleb_le in H. rewrite H.
    rewrite py_max_Qmax. reflexivity.
  - intros H. apply Qleb_gt in H. rewrite H.
    rewrite py_max_Qmax. reflexivity.
Qed.

(** The seconds of a configuration as opaque rationals, for [lra]. *)
Ltac name_seconds c ts :=
  set (S := inject_Z (start_seconds c)) in *;
  set (E := inject_Z (end_seconds c)) in *;
  set (C := inject_Z (current_seconds c ts)) in *;
  set (M := midpoint c) in *.

(** At the opening of the window the load is the base load. *)
Lemma triangular_load_at_start (c : Config) (ts : Timestamp) :
  valid_time (operating_start c) -> valid_time (operating_end c) ->
  is_operating c ts = true ->
  current_seconds c ts = start_seconds c ->
  (triangular_load c ts == base_load c)%Q.
Proof.
  intros Hs He Hop Hcur.
  destruct (window_position_Q c Hs He ts Hop) as (H1 & H2 & Hm).
  pose proof (triangular_load_halves c ts) as Hhalves. cbv zeta in Hhalves.
  destruct Hhalves as [Hrise _].
  rewrite Hcur in *. name_seconds c ts.
  assert (Hle : (S <= M)%Q) by (clear - H2 Hm; lra).
  etransitivity; [apply Hrise; exact Hle|].
  set (d := Qmax (M - S) 1).
  assert (Hzero : ((S - S) / d == 0)%Q).
  { unfold Qdiv. setoid_replace (S - S)%Q with 0%Q by ring.
    apply Qmult_0_l. }
  rewrite Hzero. ring.
Qed.

(** Computed exactly, the load at the midpoint is the peak load. *)
Lemma triangular_load_at_midpoint (c : Config) (ts : Timestamp) :
  valid_time (operating_start c) -> valid_time (operating_end c) ->
  is_operating c ts = true ->
  (inject_Z (current_seconds c ts) == midpoint c)%Q ->
  (triangular_load c ts == peak_load c)%Q.
Proof.
  intros Hs He Hop Hcur.
  destruct (window_position_Q c Hs He ts Hop) as (H1 & H2 & Hm).
  pose proof (triangular_load_halves c ts) as Hhalves. cbv zeta in Hhalves.
  destruct Hhalves as [Hrise _].
  assert (Hone : (1 <= inject_Z (current_seconds c ts)
                       - inject_Z (start_seconds c))%Q).
  { assert (start_seconds c < current_seconds c ts).
    { rewrite Zlt_Qlt. name_seconds c ts. lra. }
    unfold Qminus. rewrite <- inject_Z_opp, <- inject_Z_plus.
    change 1%Q with (inject_Z 1). rewrite <- Zle_Qle. lia. }
  name_seconds c ts.
  assert (Hle : (C <= M)%Q) by (clear - Hcur; lra).
  etransitivity; [apply Hrise; exact Hle|].
  rewrite <- Hcur. rewrite Q.max_l by exact Hone.
  field. lra.
Qed.

(** C1, amended. For every operating row, with the seconds since
    midnight of the start, the end (a day later when not after the
    start) and the hour (a day later when before the start) and the
    midpoint halfway, the load before the noise follows the rising
    formula up to the midpoint and the falling formula after it.
    Without noise the emitted load is that value rounded to three
    decimals: at the opening hour the base load rounded, which is the
    base load itself when it has at most three decimals; at an hour on
    the midpoint the rounded value of the rising formula at the
    fraction 1, the base load plus the difference to the peak load. *)
Theorem triangular_profile (c : Config) (fresh : Generator)
  (rows : list Row) (r : Row) :
  valid_time (operating_start c) -> valid_time (operating_end c) ->
  generate seeded standard_normal c fresh = Ok rows -> In r rows ->
  Operating r = true ->
  let ts := Datetime r in
  let startSec := seconds_of (operating_start c) in
  let endSec :=
    if seconds_of (operating_end c) <=? startSec
    then seconds_of (operating_end c) + 86400
    else seconds_of (operating_end c) in
  let curSec :=
    if seconds_of (ts_time ts) <? startSec
    then seconds_of (ts_time ts) + 86400
    else seconds_of (ts_time ts) in
  let mid := ((inject_Z startSec + inject_Z endSec) / 2)%Q in
  let load := pre_noise_load c ts in
  ((inject_Z curSec <= mid ->
    load == base_load c + (peak_load c - base_load c)
            * ((inject_Z curSec - inject_Z startSec)
               / Qmax (mid - inject_Z startSec) 1))
   /\ (mid < inject_Z curSec ->
       load == peak_load c - (peak_load c - base_load c)
               * ((inject_Z curSec - mid) / Qmax (inject_Z endSec - mid) 1))
   /\ (random_pct c == 0 ->
       Load_kW r = round3 load
       /\ (curSec = startSec ->
           Load_kW r == round3 (base_load c)
           /\ (three_decimals (base_load c) -> Load_kW r == base_load c))
       /\ (inject_Z curSec == mid ->
           Load_kW r
           == round3 (base_load c + (peak_load c - base_load c) * 1))))%Q.
Proof.
  intros Hs He Hgen Hin Hop ts startSec endSec curSec mid load.
  destruct (generated_row _ seeded standard_normal c fresh rows r Hgen Hin)
    as [rng0 Hrow].
  destruct (row_of_fields c r _ Hrow) as (_ & _ & _ & _ & _ & Hflag & Hload).
  fold ts in Hflag, Hload. rewrite Hop in Hflag. symmetry in Hflag.
  assert (Hcur : curSec = current_seconds c ts) by reflexivity.
  assert (Hend : endSec = end_seconds c) by reflexivity.
  assert (Hmid : (mid == midpoint c)%Q).
  { unfold mid, midpoint. rewrite Hend, inject_Z_plus. reflexivity. }
  assert (Htri : load = triangular_load c ts)
    by (unfold load, pre_noise_load; rewrite Hflag; reflexivity).
  pose proof (triangular_load_halves c ts) as Hhalves. cbv zeta in Hhalves.
  destruct Hhalves as [Hrise Hfall].
  rewrite Hcur, Hend, Htri, Hmid. change startSec with (start_seconds c).
  split; [exact Hrise|]. split; [exact Hfall|].
  intros Hzero.
  assert (Hq : Qltb 0 (random_pct c) = false)
    by (apply Qltb_ge; rewrite Hzero; apply Qle_refl).
  rewrite apply_noise_quiet in Hload by exact Hq. cbn [fst] in Hload.
  fold load in Hload. rewrite Htri in Hload.
  split; [exact Hload|]. rewrite Hload. split.
  - intros Hopen.
    assert (E : (round3 (triangular_load c ts) == round3 (base_load c))%Q)
      by (apply round3_compat, triangular_load_at_start; assumption).
    split; [exact E|]. intros H3. rewrite E. apply round3_fixed. exact H3.
  - intros Hmiddle. apply round3_compat.
    rewrite triangular_load_at_midpoint by assumption. ring.
Qed.

(** C7, amended. A schedule whose end is strictly before its start is an
    overnight window that wraps past midnight: on an operating day the
    hours at or after the start and the hours before the end are inside
    it.  A schedule whose end equals its start is an empty window: no
    hour is operating and every hour carries the base load before the
    noise. *)
Theorem overnight_window (c : Config) (ts : Timestamp) :
  valid_time (operating_start c) -> valid_time (operating_end c) ->
  (seconds_of (operating_end c) < seconds_of (operating_start c) ->
   (is_operating c ts = true <->
    In (strftime_A ts) (weekdays c)
    /\ (seconds_of (operating_start c) <= seconds_of (ts_time ts)
        \/ seconds_of (ts_time ts) < seconds_of (operating_end c))))
  /\ (operating_end c = operating_start c ->
      is_operating c ts = false /\ pre_noise_load c ts = base_load c).
Proof.
  intros Hs He. split.
  - intros Hwrap. unfold is_operating.
    rewrite andb_true_iff, is_operating_day_In.
    rewrite in_hours_window by auto using ts_time_valid.
    unfold in_window. split; intros [Hday Hwin]; (split; [exact Hday|]); lia.
  - intros Hsame.
    assert (Hout : is_operating c ts = false).
    { unfold is_operating, in_hours. rewrite Hsame, time_le_refl.
      rewrite time_le_lt_false. apply andb_false_r. }
    split; [exact Hout|]. unfold pre_noise_load. rewrite Hout. reflexivity.
Qed.


End Claims.

(** * The claims on sample runs *)

Import Sample.

Lemma valid_8 : valid_time (mk_time 8 0 0).
Proof. unfold valid_time; cbn; lia. Defined.

Lemma valid_18 : valid_time (mk_time 18 0 0).
Proof. unfold valid_time; cbn; lia. Defined.

Lemma valid_22 : valid_time (mk_time 22 0 0).
Proof. unfold valid_time; cbn; lia. Defined.

Lemma valid_6 : valid_time (mk_time 6 0 0).
Proof. unfold valid_time; cbn; lia. Defined.

(** Row [i] of a sample run is one of its rows. *)
Lemma row_In (c : Config) (i : nat) :
  (i <? List.length (rows c))%nat = true -> In (row c i) (rows c).
Proof. intros H. apply nth_In, Nat.ltb_lt, H. Defined.

(** February 2024 in the sample run: 29 days of 24 rows. *)
Lemma month_coverage_witness :
  (2000 <= 2024 <= 2100 /\ 1 <= 2 <= 12)
  /\ exists rows, gen office 0 = Ok rows /\ Z.of_nat (List.length rows) = 696.
Proof.
  split; [lia|].
  destruct (month_coverage Z lcg_seeded lcg_normal office 0)
    as (rows & Hgen & Hlen & _); [cbn; lia | cbn; lia |].
  exists rows. split; [exact Hgen | exact Hlen].
Defined.

Lemma operating_fraction_in_unit_interval_witness :
  is_operating office (feb1 10) = true
  /\ (0 <= frac office (feb1 10) <= 1)%Q
  /\ (pre_noise_load office (feb1 10) == 50 + (150 - 50) * (2 # 5))%Q.
Proof.
  assert (Hop : is_operating office (feb1 10) = true)
    by (vm_compute; reflexivity).
  split; [exact Hop|].
  destruct (operating_fraction_in_unit_interval office (feb1 10)
              valid_8 valid_18 Hop) as [Hfrac [[_ Hload] | [Hlate _]]].
  - split; [exact Hfrac|]. rewrite Hload. vm_compute. reflexivity.
  - vm_compute in Hlate. discriminate Hlate.
Defined.

Lemma office_runs : gen office 0 = Ok (rows office).
Proof. vm_compute. reflexivity. Qed.

Lemma office_noisy_runs : gen office_noisy 0 = Ok (rows office_noisy).
Proof. vm_compute. reflexivity. Qed.

Lemma office_fine_runs : gen office_fine 0 = Ok (rows office_fine).
Proof. vm_compute. reflexivity. Qed.

Lemma load_never_negative_witness :
  ((0 <= base_load office_noisy)%Q /\ (0 <= peak_load office_noisy)%Q)
  /\ Forall (fun r => (0 <= Load_kW r)%Q) (rows office_noisy).
Proof.
  split; [split; vm_compute; discriminate|].
  apply Forall_forall. intros r Hin.
  apply (load_never_negative Z lcg_seeded lcg_normal office_noisy 0
           (rows office_noisy) r);
    [exact valid_8 | exact valid_18 | vm_compute; discriminate
    | vm_compute; discriminate | exact office_noisy_runs | exact Hin].
Defined.



Lemma seeded_runs_agree_witness :
  seed office_noisy <> 0
  /\ gen office_noisy 1 = gen office_noisy 2
  /\ (month_range office = Ok (hours_from (month_start 2024 2) 696)
      /\ gen office 0
         = Ok (map (quiet_row office) (hours_from (month_start 2024 2) 696))).
Proof.
  assert (Hseed : seed office_noisy <> 0) by (cbn; discriminate).
  assert (Hrange : month_range office
                   = Ok (hours_from (month_start 2024 2) 696))
    by (vm_compute; reflexivity).
  split; [exact Hseed|]. split.
  - apply (proj1 (seeded_runs_agree Z lcg_seeded lcg_normal office_noisy)
             Hseed 1 2).
  - split; [exact Hrange|].
    apply (proj2 (seeded_runs_agree Z lcg_seeded lcg_normal office) 0 _ Hrange).
    reflexivity.
Defined.

Lemma baseline_outside_operation_witness :
  (random_pct office == 0)%Q
  /\ Forall (fun r => Operating r = false -> (Load_kW r == 50)%Q) (rows office).
Proof.
  split; [reflexivity|].
  apply Forall_forall. intros r Hin Hop.
  apply (baseline_outside_operation Z lcg_seeded lcg_normal office 0
           (rows office) r (Qeq_refl 0) office_runs Hin Hop).
  exists 50000. reflexivity.
Defined.

(** The window of the sample opens at row 8 and has its midpoint at
    row 13: 50 kW and 150 kW. *)
Lemma triangular_profile_witness :
  (Operating (row office 8) = true /\ (Load_kW (row office 8) == 50)%Q)
  /\ (Operating (row office 13) = true /\ (Load_kW (row office 13) == 150)%Q).
Proof.
  assert (H8 : Operating (row office 8) = true) by (vm_compute; reflexivity).
  assert (H13 : Operating (row office 13) = true) by (vm_compute; reflexivity).
  split; (split; [assumption|]).
  - apply (triangular_profile Z lcg_seeded lcg_normal office 0 (rows office)
             (row office 8) valid_8 valid_18 office_runs
             (row_In office 8 eq_refl) H8);
      [reflexivity | vm_compute; reflexivity | exists 50000; reflexivity].
  - apply Qeq_trans with (round3 (50 + (150 - 50) * 1));
      [|vm_compute; reflexivity].
    apply (triangular_profile Z lcg_seeded lcg_normal office 0 (rows office)
             (row office 13) valid_8 valid_18 office_runs
             (row_In office 13 eq_refl) H13);
      [reflexivity | vm_compute; reflexivity].
Defined.

Lemma overnight_window_witness :
  seconds_of (operating_end night_shift)
  < seconds_of (operating_start night_shift)
  /\ is_operating night_shift (feb1 23) = true
  /\ is_operating night_shift (feb1 2) = true.
Proof.
  assert (Hwrap : seconds_of (operating_end night_shift)
                  < seconds_of (operating_start night_shift))
    by (vm_compute; reflexivity).
  split; [exact Hwrap|]. split.
  - apply (proj1 (overnight_window night_shift (feb1 23) valid_22 valid_6)
             Hwrap).
    split; [vm_compute; tauto | left; vm_compute; discriminate].
  - apply (proj1 (overnight_window night_shift (feb1 2) valid_22 valid_6)
             Hwrap).
    split; [vm_compute; tauto | right; vm_compute; reflexivity].
Defined.



(** ** Where the claims as first stated fail *)

(** C5 as stated: a base load of 0.0004 kW is emitted as 0.000 kW in the
    hours outside operation. *)
Lemma baseline_not_exact :
  ~ (forall (c : Config) (fresh : Z) (rows : list Row) (r : Row),
        (random_pct c == 0)%Q -> gen c fresh = Ok rows -> In r rows ->
        Operating r = false -> (Load_kW r == base_load c)%Q).
Proof.
  intros H.
  specialize (H office_fine 0 (rows office_fine) (row office_fine 0)
                (Qeq_refl 0) office_fine_runs
                (row_In office_fine 0 eq_refl) eq_refl).
  vm_compute in H. discriminate H.
Qed.

(** C1 as stated: at the opening hour of the window (row 8 of the sample,
    08:00) the same base load is emitted as 0.000 kW. *)
Lemma opening_load_not_exact :
  ~ (forall (c : Config) (fresh : Z) (rows : list Row) (r : Row),
        valid_time (operating_start c) -> valid_time (operating_end c) ->
        (random_pct c == 0)%Q -> gen c fresh = Ok rows -> In r rows ->
        Operating r = true ->
        current_seconds c (Datetime r) = start_seconds c ->
        (Load_kW r == base_load c)%Q).
Proof.
  intros H.
  specialize (H office_fine 0 (rows office_fine) (row office_fine 8)
                valid_8 valid_18 (Qeq_refl 0) office_fine_runs
                (row_In office_fine 8 eq_refl) eq_refl eq_refl).
  vm_compute in H. discriminate H.
Qed.

(** C7 as stated: no schedule whose end equals its start has an hour
    inside its window. *)
Lemma equal_times_give_no_window :
  ~ (exists (c : Config) (ts : Timestamp),
        operating_end c = operating_start c
        /\ is_operating_day c ts = true
        /\ in_hours (operating_start c) (operating_end c) (ts_time ts) = true).
Proof.
  intros (c & ts & Hsame & _ & Hin).
  unfold in_hours in Hin. rewrite Hsame, time_le_refl in Hin.
  rewrite time_le_lt_false in Hin. discriminate Hin.
Qed.



(** C10 as stated: with a base load of 0.03 kW and a peak load of
    0.29 kW the load computed at 13:00, the midpoint of the sample's
    window, is above the peak load by the rounding of the sum; with
    the two loads exchanged it is below the smaller of them. *)
Lemma midpoint_load_outside_base_and_peak :
  is_operating office (feb1 13) = true
  /\ PrimFloat.ltb
       (Binary64.py_max (Binary64.ratio 3 100) (Binary64.ratio 29 100))
       (Binary64.pre_noise_load (Binary64.ratio 3 100)
          (Binary64.ratio 29 100) office (feb1 13)) = true
  /\ PrimFloat.ltb
       (Binary64.pre_noise_load (Binary64.ratio 29 100)
          (Binary64.ratio 3 100) office (feb1 13))
       (Binary64.ratio 3 100) = true.
Proof. repeat split; vm_compute; reflexivity. Qed.

(** ** The profile and the noise on floats *)

(** At the midpoint of the sample's window the fraction computed is the
    float 1, and the load the rising formula at it, whatever the base
    and the peak load. *)
Lemma midpoint_load_in_floats (base_load peak_load : Binary64.float) :
  Binary64.pre_noise_load base_load peak_load office (feb1 13)
  = PrimFloat.add base_load
      (PrimFloat.mul (PrimFloat.sub peak_load base_load)
         (Binary64.of_int 1)).
Proof. vm_compute. reflexivity. Qed.

(** That load is not the peak load: with a base load of 0.01 kW and a
    peak load of 0.0015 kW the load emitted at the midpoint is 0.001 kW
    where the peak load rounds to 0.002 kW. *)
Lemma midpoint_load_is_not_the_peak :
  Binary64.Load_kW (Binary64.ratio 1 100) (Binary64.ratio 15 10000)
    office (feb1 13) = Binary64.ratio 1 1000
  /\ Binary64.round3 (Binary64.ratio 15 10000) = Binary64.ratio 2 1000.
Proof. split; vm_compute; reflexivity. Qed.

(** Hours at the same distance from the midpoint need not carry the same
    load: with a peak load of 0.11 kW and no base load, in a window
    from 08:00 to 16:00, the load at 09:00 is emitted as 0.028 kW and
    the load at 15:00 as 0.027 kW. *)
Lemma mirror_hours_differ :
  Binary64.Load_kW (Binary64.of_int 0) (Binary64.ratio 11 100)
    Scenario.short_day (feb1 9) = Binary64.ratio 28 1000
  /\ Binary64.Load_kW (Binary64.of_int 0) (Binary64.ratio 11 100)
       Scenario.short_day (feb1 15) = Binary64.ratio 27 1000.
Proof. split; vm_compute; reflexivity. Qed.

(** The noise step is not a multiplication of the load by one factor:
    a load of 0.3 kW with 5 % of noise and the sample -1.5 becomes a
    float below the product of 0.3 and [1 + 0.05 * -1.5]. *)
Lemma noise_is_no_factor :
  PrimFloat.ltb
    (Binary64.apply_noise (Binary64.ratio 5 100) (Binary64.ratio (-3) 2)
       (Binary64.ratio 3 10))
    (PrimFloat.mul (Binary64.ratio 3 10)
       (PrimFloat.add (Binary64.of_int 1)
          (PrimFloat.mul (Binary64.ratio 5 100) (Binary64.ratio (-3) 2))))
  = true.
Proof. vm_compute. reflexivity. Qed.

(** * Further properties of the generator and of the report *)

(** ** Mean and maximum of a column *)

Section Series.
Local Open Scope Q_scope.
Import Report.

Lemma count_succ (n : nat) :
  inject_Z (Z.of_nat (S n)) == inject_Z (Z.of_nat n) + 1.
Proof.
  rewrite Nat2Z.inj_succ. unfold Z.succ. rewrite inject_Z_plus. reflexivity.
Qed.

(** The sum of values between [lo] and [hi] lies between the count
    times [lo] and the count times [hi]. *)
Lemma series_sum_between (lo hi : Q) (xs : list Q) :
  Forall (fun x => lo <= x <= hi) xs ->
  forall acc,
    acc + lo * inject_Z (Z.of_nat (List.length xs))
    <= fold_left Qplus xs acc
    <= acc + hi * inject_Z (Z.of_nat (List.length xs)).
Proof.
  induction 1 as [|x xs Hx _ IH]; intros acc.
  - cbn. split; ring_simplify; apply Qle_refl.
  - cbn [fold_left List.length]. rewrite count_succ.
    specialize (IH (acc + x)).
    set (n := inject_Z (Z.of_nat (List.length xs))) in *.
    set (total := fold_left Qplus xs (acc + x)) in *.
    split; lra.
Qed.

(** The mean of values between [lo] and [hi] lies between them. *)
Lemma series_mean_between (lo hi : Q) (xs : list Q) :
  xs <> [] -> Forall (fun x => lo <= x <= hi) xs ->
  exists mean, series_mean xs = Some mean /\ lo <= mean <= hi.
Proof.
  intros Hne Hall. destruct xs as [|x rest]; [contradiction|].
  eexists. split; [reflexivity|].
  pose proof (series_sum_between lo hi _ Hall 0) as Hsum.
  fold (series_sum (x :: rest)) in Hsum.
  set (n := inject_Z (Z.of_nat (List.length (x :: rest)))) in *.
  assert (Hn : 0 < n).
  { subst n. change 0 with (inject_Z 0). rewrite <- Zlt_Qlt. cbn. lia. }
  set (total := series_sum (x :: rest)) in *.
  split; [apply Qle_shift_div_l | apply Qle_shift_div_r]; lra.
Qed.

(** The running maximum starts from its first value and only grows. *)
Lemma running_max_ge_start (xs : list Q) :
  forall m, m <= fold_left py_max xs m.
Proof.
  induction xs as [|x xs IH]; intros m; cbn [fold_left].
  - apply Qle_refl.
  - apply Qle_trans with (py_max m x); [apply py_max_l | apply IH].
Qed.

Lemma running_max_ge (xs : list Q) :
  forall m x, In x xs -> x <= fold_left py_max xs m.
Proof.
  induction xs as [|y xs IH]; intros m x Hin; [contradiction|].
  cbn [fold_left]. destruct Hin as [-> | Hin].
  - apply Qle_trans with (py_max m x);
      [apply py_max_r | apply running_max_ge_start].
  - apply IH. exact Hin.
Qed.

(** The running maximum is one of the values. *)
Lemma running_max_In (xs : list Q) :
  forall m, fold_left py_max xs m = m \/ In (fold_left py_max xs m) xs.
Proof.
  induction xs as [|y xs IH]; intros m; cbn [fold_left]; [left; reflexivity|].
  destruct (IH (py_max m y)) as [E | Hin].
  - rewrite E. destruct (py_max_cases m y) as [[_ ->] | [_ ->]];
      [right; left; reflexivity | left; reflexivity].
  - right. right. exact Hin.
Qed.

Lemma series_max_spec (xs : list Q) :
  xs <> [] ->
  exists top, series_max xs = Some top /\ In top xs
              /\ forall x, In x xs -> x <= top.
Proof.
  intros Hne. destruct xs as [|x rest]; [contradiction|].
  exists (fold_left py_max rest x). split; [reflexivity|]. split.
  - destruct (running_max_In rest x) as [-> | Hin];
      [left; reflexivity | right; exact Hin].
  - intros y [<- | Hin];
      [apply running_max_ge_start | apply running_max_ge; exact Hin].
Qed.

End Series.

(** ** Hours with the same weekday and time of day *)

Lemma week_later_time (ts : Timestamp) :
  ts_time (ts + 604800) = ts_time ts.
Proof.
  unfold ts_time, ts_hour, ts_minute, ts_second.
  replace (ts + 604800) with (ts + 7 * 86400) at 1 by lia.
  rewrite Z.mod_add by lia.
  replace (ts + 604800) with (ts + 168 * 3600) at 1 by lia.
  rewrite Z.mod_add by lia.
  replace (ts + 604800) with (ts + 10080 * 60) by lia.
  rewrite Z.mod_add by lia. reflexivity.
Qed.

Lemma week_later_weekday (ts : Timestamp) :
  strftime_A (ts + 604800) = strftime_A ts.
Proof.
  unfold strftime_A, ts_ordinal, Calendar.weekday_of_ordinal.
  replace (ts + 604800) with (ts + 7 * 86400) by lia.
  rewrite Z.div_add by lia.
  replace (ts / 86400 + 7 + 6) with (ts / 86400 + 6 + 1 * 7) by lia.
  rewrite Z.mod_add by lia. reflexivity.
Qed.

(** The flag and the load before the noise depend on the hour through
    its weekday name and its time of day alone. *)
Lemma same_weekday_and_time (c : Config) (ts1 ts2 : Timestamp) :
  strftime_A ts1 = strftime_A ts2 -> ts_time ts1 = ts_time ts2 ->
  is_operating c ts1 = is_operating c ts2
  /\ pre_noise_load c ts1 = pre_noise_load c ts2.
Proof.
  intros Hday Htime.
  assert (Hop : is_operating c ts1 = is_operating c ts2)
    by (unfold is_operating, is_operating_day; rewrite Hday, Htime;
        reflexivity).
  assert (Hcur : current_seconds c ts1 = current_seconds c ts2).
  { unfold current_seconds. injection Htime as -> -> ->. reflexivity. }
  split; [exact Hop|].
  unfold pre_noise_load, triangular_load, frac. rewrite Hop, Hcur.
  reflexivity.
Qed.

(** The weekday name is one of the seven names of the widget. *)
Lemma strftime_A_is_a_weekday (ts : Timestamp) :
  In (strftime_A ts)
     ["Monday"; "Tuesday"; "Wednesday"; "Thursday"; "Friday"; "Saturday";
      "Sunday"]%string.
Proof.
  unfold strftime_A, Calendar.weekday_of_ordinal.
  pose proof (Z.mod_pos_bound (ts_ordinal ts + 6) 7 ltac:(lia)) as H.
  remember ((ts_ordinal ts + 6) mod 7) as wd eqn:Ewd. clear Ewd.
  assert (W : wd = 0 \/ wd = 1 \/ wd = 2 \/ wd = 3 \/ wd = 4 \/ wd = 5
              \/ wd = 6) by lia.
  repeat (destruct W as [-> | W]); try subst wd; cbn; tauto.
Qed.

(** ** The run and its report *)

Section Further.
Import Report.

Variable Generator : Type.
Variable seeded : Z -> Generator.
Variable standard_normal : Generator -> Q * Generator.

(** No noise is applied when the percentage is not positive. *)
Lemma quiet_row_of_run (c : Config) (fresh : Generator)
  (rows : list Row) (r : Row) :
  (random_pct c <= 0)%Q ->
  generate seeded standard_normal c fresh = Ok rows -> In r rows ->
  r = quiet_row c (Datetime r).
Proof.
  intros Hpct Hgen Hin. apply Qltb_ge in Hpct.
  destruct (generated_row _ seeded standard_normal c fresh rows r Hgen Hin)
    as [rng0 Hrow].
  rewrite apply_noise_quiet in Hrow by exact Hpct. exact Hrow.
Qed.

(** X1. The preview of the first 168 rows is the first week of the
    month: for every year from 2000 to 2100 and month from 1 to 12 it
    holds exactly 168 rows, row [i] of it is row [i] of the run, hour
    [i mod 24] of day [1 + i / 24], and a row of the run is in the
    preview exactly when its day is at most 7. *)
Theorem preview_is_first_week (c : Config) (fresh : Generator) :
  2000 <= year c <= 2100 -> 1 <= month c <= 12 -> 0 <= seed c ->
  exists rows,
    generate seeded standard_normal c fresh = Ok rows /\
    List.length (preview rows) = 168%nat /\
    (forall i r, nth_error (preview rows) i = Some r ->
       nth_error rows i = Some r /\
       Day r = 1 + Z.of_nat i / 24 /\ Hour r = Z.of_nat i mod 24 /\
       1 <= Day r <= 7) /\
    (forall r, In r rows -> (In r (preview rows) <-> Day r <= 7)).
Proof.
  intros Hy Hm _.
  destruct (month_rows_by_position _ seeded standard_normal c fresh
              ltac:(lia) Hm) as (rows & Hgen & Hlen & Hpos).
  pose proof (days_in_month_bounds (year c) (month c) Hm) as Hd.
  unfold month_hours in Hlen.
  assert (Hpre : forall i r, nth_error (preview rows) i = Some r ->
                   (i < 168)%nat /\ nth_error rows i = Some r).
  { intros i r H. unfold preview in H. rewrite nth_error_firstn in H.
    destruct (i <? 168)%nat eqn:E; [|discriminate].
    apply Nat.ltb_lt in E. split; assumption. }
  exists rows. split; [exact Hgen|]. split; [|split].
  - unfold preview. rewrite length_firstn. lia.
  - intros i r H. destruct (Hpre i r H) as [Hi Hr].
    destruct (Hpos i r Hr) as (_ & _ & _ & Hday & Hhour).
    split; [exact Hr|]. rewrite Hday, Hhour.
    repeat split; Z.div_mod_to_equations; lia.
  - intros r Hin. split.
    + intros Hp. destruct (In_nth_error _ _ Hp) as [i Hi].
      destruct (Hpre i r Hi) as [Hlt Hr].
      destruct (Hpos i r Hr) as (_ & _ & _ & Hday & _).
      rewrite Hday. Z.div_mod_to_equations; lia.
    + intros Hweek. destruct (In_nth_error _ _ Hin) as [i Hi].
      destruct (Hpos i r Hi) as (_ & _ & _ & Hday & _).
      apply nth_error_In with i. unfold preview.
      rewrite nth_error_firstn.
      replace (i <? 168)%nat with true; [exact Hi|].
      symmetry. apply Nat.ltb_lt. rewrite Hday in Hweek.
      Z.div_mod_to_equations; lia.
Qed.

(** X2. For every year from 2000 to 2100 and month from 1 to 12 the
    three metrics of the summary exist: the count of hours is the
    length of the month, the column of the loads has a mean, and the
    peak metric is the load of one of the rows, which no row exceeds;
    with base and peak loads that are not negative neither the average
    nor the peak metric is negative. *)
Theorem summary_metrics (c : Config) (fresh : Generator) :
  valid_time (operating_start c) -> valid_time (operating_end c) ->
  2000 <= year c <= 2100 -> 1 <= month c <= 12 -> 0 <= seed c ->
  exists rows average peak,
    generate seeded standard_normal c fresh = Ok rows /\
    hours_in_month rows = Calendar.days_in_month (year c) (month c) * 24 /\
    average_load rows = Some average /\
    peak_metric rows = Some peak /\
    (exists r, In r rows /\ Load_kW r = peak) /\
    (forall r, In r rows -> (Load_kW r <= peak)%Q) /\
    ((0 <= base_load c)%Q -> (0 <= peak_load c)%Q ->
     (0 <= average)%Q /\ (0 <= peak)%Q).
Proof.
  intros Hs He Hy Hm _.
  destruct (month_rows_by_position _ seeded standard_normal c fresh
              ltac:(lia) Hm) as (rows & Hgen & Hlen & _).
  pose proof (days_in_month_bounds (year c) (month c) Hm) as Hd.
  unfold month_hours in Hlen.
  assert (Hne : Load_kW_column rows <> []).
  { unfold Load_kW_column. destruct rows; [cbn in Hlen; lia | discriminate]. }
  destruct (series_max_spec _ Hne) as (peak & Hpeak & Hin & Htop).
  assert (Hmean : exists average, average_load rows = Some average).
  { unfold average_load, series_mean.
    destruct (Load_kW_column rows); [contradiction | eauto]. }
  destruct Hmean as [average Hmean].
  assert (Hrow : exists r, In r rows /\ Load_kW r = peak).
  { unfold Load_kW_column in Hin. apply in_map_iff in Hin.
    destruct Hin as (r & Hr & Hin). exists r. split; assumption. }
  exists rows, average, peak.
  split; [exact Hgen|]. split; [unfold hours_in_month; lia|].
  split; [exact Hmean|]. split; [exact Hpeak|].
  split; [exact Hrow|]. split.
  - intros r Hr. apply Htop. unfold Load_kW_column. apply in_map. exact Hr.
  - intros Hb Hp.
    assert (H0 : forall r, In r rows -> (0 <= Load_kW r)%Q).
    { intros r Hr.
      destruct (generated_row _ seeded standard_normal c fresh rows r Hgen Hr)
        as [rng0 Hrow'].
      destruct (row_of_fields c r _ Hrow') as (_ & _ & _ & _ & _ & _ & ->).
      apply round3_nonneg, apply_noise_nonneg, pre_noise_load_nonneg;
        assumption. }
    split.
    + assert (Hall : Forall (fun x => (0 <= x <= peak)%Q)
                            (Load_kW_column rows)).
      { apply Forall_forall. intros x Hx. split; [|apply Htop; exact Hx].
        unfold Load_kW_column in Hx. apply in_map_iff in Hx.
        destruct Hx as (r & <- & Hr). apply H0. exact Hr. }
      destruct (series_mean_between 0 peak _ Hne Hall)
        as (average' & Hmean' & Hlow & _).
      unfold average_load in Hmean. rewrite Hmean in Hmean'.
      injection Hmean' as <-. exact Hlow.
    + destruct Hrow as (r & Hr & <-). apply H0. exact Hr.
Qed.

(** The range of a month, when it is built, steps by one hour from its
    first timestamp. *)
Lemma month_range_steps (c : Config) (range : list Timestamp) :
  month_range c = Ok range ->
  exists start, forall i ts,
    nth_error range i = Some ts -> ts = start + 3600 * Z.of_nat i.
Proof.
  unfold month_range.
  destruct (start_date c) as [s|]; cbn [bind]; [|discriminate].
  destruct (end_date c) as [e|]; cbn [bind]; [|discriminate].
  unfold date_range.
  destruct (in_bounds (Timestamp_of s) && in_bounds (Timestamp_of e));
    [|discriminate].
  intros H. injection H as <-. exists (Timestamp_of s).
  intros i ts Hi.
  rewrite nth_error_map, nth_error_seq in Hi.
  destruct (i <? _)%nat; [|discriminate].
  injection Hi as <-. reflexivity.
Qed.

(** The timestamp of row [i] of a run, from the first of its range. *)
Lemma run_steps (c : Config) (fresh : Generator) (rows : list Row) :
  generate seeded standard_normal c fresh = Ok rows ->
  exists start, forall i r,
    nth_error rows i = Some r -> Datetime r = start + 3600 * Z.of_nat i.
Proof.
  intros Hgen. destruct (run_rows _ seeded standard_normal c fresh rows Hgen)
    as (range & Hrange & Hrows).
  destruct (month_range_steps c range Hrange) as [start Hstart].
  exists start. intros i r Hi. apply Hstart.
  pose proof (nth_error_datetime rows i r Hi) as Hts.
  rewrite Hrows, rows_loop_datetimes in Hts. exact Hts.
Qed.

(** X4. The rows repeat from week to week: row [i + 168] of a run has
    the weekday name and the operating flag of row [i], and without
    noise (a percentage of 0, or below) its load too. *)
Theorem rows_repeat_weekly (c : Config) (fresh : Generator)
  (rows : list Row) (i : nat) (r r' : Row) :
  generate seeded standard_normal c fresh = Ok rows ->
  nth_error rows i = Some r -> nth_error rows (i + 168) = Some r' ->
  Weekday r' = Weekday r /\ Operating r' = Operating r /\
  ((random_pct c <= 0)%Q -> Load_kW r' = Load_kW r).
Proof.
  intros Hgen Hr Hr'.
  destruct (run_steps c fresh rows Hgen) as [start Hstart].
  assert (Hweek : Datetime r' = Datetime r + 604800).
  { rewrite (Hstart _ _ Hr), (Hstart _ _ Hr'). lia. }
  destruct (same_weekday_and_time c (Datetime r') (Datetime r)) as [Hop Hload].
  { rewrite Hweek. apply week_later_weekday. }
  { rewrite Hweek. apply week_later_time. }
  pose proof (nth_error_In _ _ Hr) as Hin.
  pose proof (nth_error_In _ _ Hr') as Hin'.
  destruct (generated_row _ seeded standard_normal c fresh rows r Hgen Hin)
    as [rng0 Hrow].
  destruct (generated_row _ seeded standard_normal c fresh rows r' Hgen Hin')
    as [rng0' Hrow'].
  destruct (row_of_fields c r _ Hrow) as (_ & _ & _ & _ & Hwd & Hflag & _).
  destruct (row_of_fields c r' _ Hrow') as (_ & _ & _ & _ & Hwd' & Hflag' & _).
  split; [|split].
  - rewrite Hwd, Hwd', Hweek. apply week_later_weekday.
  - rewrite Hflag, Hflag'. exact Hop.
  - intros Hpct.
    rewrite (quiet_row_of_run c fresh rows r Hpct Hgen Hin).
    rewrite (quiet_row_of_run c fresh rows r' Hpct Hgen Hin').
    cbn [quiet_row row_of Load_kW]. rewrite Hload. reflexivity.
Qed.

(** The noise is a multiple of the load: it leaves a load of 0 at 0. *)
Lemma apply_noise_zero (c : Config) (rng : Generator) (load : Q) :
  (load == 0)%Q -> (fst (apply_noise standard_normal c rng load) == 0)%Q.
Proof.
  intros Hload. destruct (Qltb 0 (random_pct c)) eqn:E.
  - rewrite apply_noise_noisy by exact E. cbn [fst]. cbv zeta.
    set (z := fst (standard_normal rng)).
    assert (Hx : (load + (0 + random_pct c / 100 * z) * load == 0)%Q)
      by (rewrite Hload; ring).
    destruct (py_max_cases (load + (0 + random_pct c / 100 * z) * load) 0)
      as [[_ ->] | [_ ->]]; [reflexivity | exact Hx].
  - rewrite apply_noise_quiet by exact E. exact Hload.
Qed.

(** X5. The noise scales with the load of the hour, so it leaves a load
    of 0 at 0: whatever the noise percentage and the samples, a row
    whose load before the noise is 0 has load 0, and with a base load of
    0 so has every row that is not operating. *)
Theorem zero_load_stays_zero (c : Config) (fresh : Generator)
  (rows : list Row) (r : Row) :
  generate seeded standard_normal c fresh = Ok rows -> In r rows ->
  ((pre_noise_load c (Datetime r) == 0)%Q -> (Load_kW r == 0)%Q) /\
  ((base_load c == 0)%Q -> Operating r = false -> (Load_kW r == 0)%Q).
Proof.
  intros Hgen Hin.
  destruct (generated_row _ seeded standard_normal c fresh rows r Hgen Hin)
    as [rng0 Hrow].
  destruct (row_of_fields c r _ Hrow) as (_ & _ & _ & _ & _ & Hflag & Hload).
  assert (Hzero : (pre_noise_load c (Datetime r) == 0)%Q ->
                  (Load_kW r == 0)%Q).
  { intros H0. rewrite Hload.
    rewrite (round3_compat _ 0 (apply_noise_zero c rng0 _ H0)).
    reflexivity. }
  split; [exact Hzero|].
  intros Hbase Hop. apply Hzero.
  unfold pre_noise_load. rewrite <- Hflag, Hop. exact Hbase.
Qed.

(** X6. The selection of operating days at its two ends: with no day
    selected no row is operating; with all seven days selected the flag
    of a row is the test of the operating hours alone. *)
Theorem operating_days_all_or_none (c : Config) (fresh : Generator)
  (rows : list Row) (r : Row) :
  generate seeded standard_normal c fresh = Ok rows -> In r rows ->
  (weekdays c = [] -> Operating r = false) /\
  ((forall day,
       In day ["Monday"; "Tuesday"; "Wednesday"; "Thursday"; "Friday";
               "Saturday"; "Sunday"]%string -> In day (weekdays c)) ->
   Operating r
   = in_hours (operating_start c) (operating_end c) (ts_time (Datetime r))).
Proof.
  intros Hgen Hin.
  destruct (generated_row _ seeded standard_normal c fresh rows r Hgen Hin)
    as [rng0 Hrow].
  destruct (row_of_fields c r _ Hrow) as (_ & _ & _ & _ & _ & -> & _).
  unfold is_operating. split.
  - intros Hnone. unfold is_operating_day. rewrite Hnone. reflexivity.
  - intros Hall.
    assert (Hday : is_operating_day c (Datetime r) = true)
      by (apply is_operating_day_In, Hall, strftime_A_is_a_weekday).
    rewrite Hday. reflexivity.
Qed.

(** With equal base and peak loads the profile is flat. *)
Lemma flat_pre_noise_load (c : Config) (ts : Timestamp) :
  (peak_load c == base_load c)%Q -> (pre_noise_load c ts == base_load c)%Q.
Proof.
  intros Hflat. unfold pre_noise_load, triangular_load.
  destruct (is_operating c ts); [|reflexivity].
  destruct (Qleb _ _); rewrite Hflat; ring.
Qed.

(** X7. With a peak load equal to the base load the profile is flat:
    every hour, operating or not, has the base load before the noise,
    and without noise every row carries the base load rounded to three
    decimals. *)
Theorem flat_profile (c : Config) (fresh : Generator)
  (rows : list Row) (r : Row) :
  (peak_load c == base_load c)%Q ->
  generate seeded standard_normal c fresh = Ok rows -> In r rows ->
  (pre_noise_load c (Datetime r) == base_load c)%Q /\
  ((random_pct c <= 0)%Q -> (Load_kW r == round3 (base_load c))%Q).
Proof.
  intros Hflat Hgen Hin.
  pose proof (flat_pre_noise_load c (Datetime r) Hflat) as Hload.
  split; [exact Hload|].
  intros Hpct. rewrite (quiet_row_of_run c fresh rows r Hpct Hgen Hin).
  cbn [quiet_row row_of Load_kW]. apply round3_compat. exact Hload.
Qed.

(** X8. With noise, a load that is not negative moves by at most [k]
    times the percentage of itself when the standard-normal sample lies
    within [-k, k]; the clamp at 0 never moves it further. *)
Theorem noise_within_samples (c : Config) (rng : Generator) (load k : Q) :
  (0 < random_pct c)%Q -> (0 <= load)%Q ->
  (- k <= fst (standard_normal rng) <= k)%Q ->
  let noisy := fst (apply_noise standard_normal c rng load) in
  let reach := (random_pct c / 100 * k * load)%Q in
  (load - reach <= noisy <= load + reach)%Q /\ (0 <= noisy)%Q /\
  snd (apply_noise standard_normal c rng load) = snd (standard_normal rng).
Proof.
  intros Hpct Hload Hz noisy reach.
  assert (E : Qltb 0 (random_pct c) = true) by (apply Qltb_lt; exact Hpct).
  subst noisy. rewrite apply_noise_noisy by exact E. cbn [fst snd]. cbv zeta.
  set (z := fst (standard_normal rng)) in *.
  assert (Hp : (random_pct c / 100 == random_pct c * (1 # 100))%Q)
    by (unfold Qdiv; reflexivity).
  set (p := (random_pct c / 100)%Q) in *.
  assert (Hp0 : (0 < p)%Q) by lra.
  subst reach.
  assert (Hw : (0 <= p * load)%Q)
    by (apply Qmult_le_0_compat; [apply Qlt_le_weak|]; assumption).
  pose proof (Qmult_le_0_compat (p * load) (k - z) Hw ltac:(lra)) as Hup.
  pose proof (Qmult_le_0_compat (p * load) (z + k) Hw ltac:(lra)) as Hdown.
  ring_simplify in Hup. ring_simplify in Hdown.
  split; [|split; [apply py_max_r | reflexivity]].
  destruct (py_max_cases (load + (0 + p * z) * load) 0) as [[H ->] | [H ->]];
    split; ring_simplify; ring_simplify in H; lra.
Qed.

Lemma operating_pre_noise_load (c : Config) (ts : Timestamp) :
  is_operating c ts = true -> pre_noise_load c ts = triangular_load c ts.
Proof. intros H. unfold pre_noise_load. rewrite H. reflexivity. Qed.

End Further.

(** ** The names of the downloads *)

Section FileNames.
Import Report.
Local Open Scope string_scope.

Lemma length_append (s t : string) :
  String.length (s ++ t) = (String.length s + String.length t)%nat.
Proof.
  induction s as [|a s IH]; cbn; [reflexivity | rewrite IH; reflexivity].
Qed.

Lemma chars_append (s t : string) : chars (s ++ t) = (chars s ++ chars t)%list.
Proof.
  induction s as [|a s IH]; cbn; [reflexivity | rewrite IH; reflexivity].
Qed.

Lemma append_inv_head (s a b : string) : s ++ a = s ++ b -> a = b.
Proof.
  induction s as [|ch s IH]; cbn; intros H; [exact H|].
  injection H as H. apply IH, H.
Qed.

Lemma append_inv_tail (s s' t : string) : s ++ t = s' ++ t -> s = s'.
Proof.
  revert s'. induction s as [|a s IH]; intros [|a' s'] H; cbn in H.
  - reflexivity.
  - exfalso. apply (f_equal String.length) in H. cbn in H.
    rewrite length_append in H. lia.
  - exfalso. apply (f_equal String.length) in H. cbn in H.
    rewrite length_append in H. lia.
  - injection H as -> H. f_equal. apply IH, H.
Qed.

(** Two strings free of a separator, each followed by it, are found
    back from their concatenations. *)
Lemma split_at_separator (sep : ascii) (s s' t t' : string) :
  ~ In sep (chars s) -> ~ In sep (chars s') ->
  s ++ String sep t = s' ++ String sep t' -> s = s' /\ t = t'.
Proof.
  revert s'. induction s as [|a s IH]; intros [|a' s'] Hs Hs' H; cbn in *.
  - injection H as ->. split; reflexivity.
  - injection H as -> _. exfalso. apply Hs'. left. reflexivity.
  - injection H as -> _. exfalso. apply Hs. left. reflexivity.
  - injection H as -> H.
    destruct (IH s') as [-> ->]; [tauto | tauto | exact H |].
    split; reflexivity.
Qed.

Lemma digits_of_uint (u : Decimal.uint) :
  Forall digit (chars (DecimalString.NilEmpty.string_of_uint u)).
Proof.
  induction u; cbn [DecimalString.NilEmpty.string_of_uint chars];
    constructor; try assumption; unfold digit; cbn; tauto.
Qed.

Lemma string_of_uint_nonempty (u : Decimal.uint) :
  u <> Decimal.Nil ->
  DecimalString.NilZero.string_of_uint u
  = DecimalString.NilEmpty.string_of_uint u
  /\ (1 <= String.length (DecimalString.NilEmpty.string_of_uint u))%nat.
Proof.
  destruct u; intros H; try contradiction; cbn; split; (reflexivity || lia).
Qed.

(** [str(n)] of an integer that is not negative: the digits of [n],
    at least one, which read back as [n]. *)
Lemma str_int_nonneg (n : Z) :
  0 <= n ->
  exists u, str_int n = DecimalString.NilEmpty.string_of_uint u
            /\ u <> Decimal.Nil /\ Z.of_uint u = n.
Proof.
  intros Hn. unfold str_int. destruct n as [|p|p]; [| |lia].
  - exists (Decimal.D0 Decimal.Nil). repeat split; discriminate || reflexivity.
  - exists (Pos.to_uint p).
    pose proof (DecimalPos.Unsigned.to_uint_nonnil p) as Hnil.
    split; [apply string_of_uint_nonempty, Hnil|]. split; [exact Hnil|].
    apply (DecimalZ.of_to (Z.pos p)).
Qed.

Lemma str_int_negative (n : Z) :
  n < 0 -> str_int n = String "-" (str_int (Z.abs n)).
Proof. intros Hn. destruct n as [|p|p]; try lia. reflexivity. Qed.

Lemma str_int_digits (n : Z) : 0 <= n -> Forall digit (chars (str_int n)).
Proof.
  intros Hn. destruct (str_int_nonneg n Hn) as (u & -> & _).
  apply digits_of_uint.
Qed.

Lemma str_int_length (n : Z) : (1 <= String.length (str_int n))%nat.
Proof.
  destruct (Z_lt_le_dec n 0) as [Hneg | Hpos].
  - rewrite str_int_negative by exact Hneg. cbn. lia.
  - destruct (str_int_nonneg n Hpos) as (u & -> & Hnil & _).
    apply string_of_uint_nonempty, Hnil.
Qed.

Lemma digits_value_str_int (n : Z) :
  0 <= n -> digits_value (str_int n) = Some n.
Proof.
  intros Hn. destruct (str_int_nonneg n Hn) as (u & -> & _ & Hu).
  unfold digits_value. rewrite DecimalString.NilEmpty.usu. cbn. rewrite Hu.
  reflexivity.
Qed.

Lemma digits_value_zeros (k : nat) (s : string) (n : Z) :
  digits_value s = Some n -> digits_value (zeros k ++ s) = Some n.
Proof.
  intros Hs. induction k as [|k IH]; [exact Hs|].
  unfold digits_value in *. cbn [zeros append].
  cbn [DecimalString.NilEmpty.uint_of_string].
  destruct (DecimalString.NilEmpty.uint_of_string (zeros k ++ s)) as [u|];
    [|discriminate].
  cbn in *. exact IH.
Qed.

Lemma str_int_inj (a b : Z) : str_int a = str_int b -> a = b.
Proof.
  intros H.
  destruct (Z_lt_le_dec a 0) as [Ha | Ha];
    destruct (Z_lt_le_dec b 0) as [Hb | Hb].
  - rewrite (str_int_negative a Ha), (str_int_negative b Hb) in H.
    injection H as H.
    pose proof (digits_value_str_int (Z.abs a) ltac:(lia)) as Va.
    pose proof (digits_value_str_int (Z.abs b) ltac:(lia)) as Vb.
    rewrite H in Va. rewrite Va in Vb. injection Vb as Vb. lia.
  - exfalso. rewrite (str_int_negative a Ha) in H.
    pose proof (str_int_digits b Hb) as Hd. rewrite <- H in Hd.
    cbn in Hd. inversion Hd as [|? ? Hminus _]. unfold digit in Hminus.
    cbn in Hminus. intuition discriminate.
  - exfalso. rewrite (str_int_negative b Hb) in H.
    pose proof (str_int_digits a Ha) as Hd. rewrite H in Hd.
    cbn in Hd. inversion Hd as [|? ? Hminus _]. unfold digit in Hminus.
    cbn in Hminus. intuition discriminate.
  - pose proof (digits_value_str_int a Ha) as Va.
    pose proof (digits_value_str_int b Hb) as Vb.
    rewrite H in Va. rewrite Va in Vb. injection Vb as Vb. exact Vb.
Qed.

Lemma str_int_no_underscore (n : Z) : ~ In "_"%char (chars (str_int n)).
Proof.
  assert (Hd : forall s, Forall digit (chars s) -> ~ In "_"%char (chars s)).
  { intros s Hs Hin. rewrite Forall_forall in Hs. specialize (Hs _ Hin).
    unfold digit in Hs. cbn in Hs. intuition discriminate. }
  destruct (Z_lt_le_dec n 0) as [Hneg | Hpos].
  - rewrite str_int_negative by exact Hneg. cbn. intros [H | H].
    + discriminate H.
    + revert H. apply Hd, str_int_digits. lia.
  - apply Hd, str_int_digits, Hpos.
Qed.

Lemma format_02d_negative (n : Z) :
  n < 0 -> format_02d n = String "-" (str_int (Z.abs n)).
Proof.
  intros Hn. unfold format_02d.
  replace (n <? 0)%Z with true by lia.
  pose proof (str_int_length (Z.abs n)) as Hlen.
  replace (1 - String.length (str_int (Z.abs n)))%nat with 0%nat by lia.
  reflexivity.
Qed.

(** For a month that is not negative: zeros, then its digits; the whole
    reads back as the month. *)
Lemma format_02d_nonneg (n : Z) :
  0 <= n ->
  format_02d n
  = zeros (2 - String.length (str_int n)) ++ str_int n
  /\ digits_value (format_02d n) = Some n
  /\ Forall digit (chars (format_02d n)).
Proof.
  intros Hn. unfold format_02d.
  replace (n <? 0)%Z with false by lia. rewrite Z.abs_eq by exact Hn.
  split; [reflexivity|]. split.
  - apply digits_value_zeros, digits_value_str_int, Hn.
  - rewrite chars_append. apply Forall_app. split.
    + induction (2 - String.length (str_int n))%nat as [|k IH]; cbn;
        constructor; [unfold digit; cbn; tauto | exact IH].
    + apply str_int_digits, Hn.
Qed.

Lemma format_02d_inj (a b : Z) : format_02d a = format_02d b -> a = b.
Proof.
  intros H.
  assert (Hsign : forall m n, m < 0 -> 0 <= n ->
                    format_02d m = format_02d n -> False).
  { intros m n Hm Hn E. rewrite (format_02d_negative m Hm) in E.
    destruct (format_02d_nonneg n Hn) as (_ & _ & Hd). rewrite <- E in Hd.
    cbn in Hd. inversion Hd as [|? ? Hminus _]. unfold digit in Hminus.
    cbn in Hminus. intuition discriminate. }
  destruct (Z_lt_le_dec a 0) as [Ha | Ha];
    destruct (Z_lt_le_dec b 0) as [Hb | Hb].
  - rewrite (format_02d_negative a Ha), (format_02d_negative b Hb) in H.
    injection H as H. apply str_int_inj in H. lia.
  - exfalso. exact (Hsign a b Ha Hb H).
  - exfalso. exact (Hsign b a Hb Ha (eq_sym H)).
  - destruct (format_02d_nonneg a Ha) as (_ & Va & _).
    destruct (format_02d_nonneg b Hb) as (_ & Vb & _).
    rewrite H in Va. rewrite Va in Vb. injection Vb as Vb. exact Vb.
Qed.

Lemma widths_in_the_widgets :
  forallb (fun y => (String.length (str_int y) =? 4)%nat) (zrange 2000 101)
  && forallb (fun m => (String.length (format_02d m) =? 2)%nat) (zrange 1 12)
  = true.
Proof. vm_compute. reflexivity. Qed.

(** X11. The names of the two downloads tell the month: two
    configurations get the same name for a download only when they have
    the same year and the same month; and for the years and months of
    the widgets (2000 to 2100, 1 to 12) the year takes four characters
    and the month two, so the Excel name has 23 characters and the CSV
    name 22. *)
Theorem download_names_identify_month (c c' : Config) :
  (forall extension,
      file_name c extension = file_name c' extension ->
      year c = year c' /\ month c = month c') /\
  (excel_file_name c = excel_file_name c' ->
   year c = year c' /\ month c = month c') /\
  (csv_file_name c = csv_file_name c' ->
   year c = year c' /\ month c = month c') /\
  (2000 <= year c <= 2100 -> 1 <= month c <= 12 ->
   String.length (str_int (year c)) = 4%nat /\
   String.length (format_02d (month c)) = 2%nat /\
   String.length (excel_file_name c) = 23%nat /\
   String.length (csv_file_name c) = 22%nat).
Proof.
  assert (Hinj : forall extension,
             file_name c extension = file_name c' extension ->
             year c = year c' /\ month c = month c').
  { intros extension H. unfold file_name in H.
    apply append_inv_head in H.
    apply split_at_separator in H; try apply str_int_no_underscore.
    destruct H as [Hy Hm]. apply str_int_inj in Hy.
    apply append_inv_tail, format_02d_inj in Hm. split; assumption. }
  split; [exact Hinj|]. split; [apply Hinj|]. split; [apply Hinj|].
  intros Hy Hm. pose proof widths_in_the_widgets as W.
  apply andb_true_iff in W. destruct W as [Wy Wm].
  rewrite forallb_forall in Wy, Wm.
  specialize (Wy (year c)
                (CalendarFacts.In_zrange 2000 101 (year c) ltac:(lia))).
  specialize (Wm (month c)
                (CalendarFacts.In_zrange 1 12 (month c) ltac:(lia))).
  apply Nat.eqb_eq in Wy, Wm.
  unfold excel_file_name, csv_file_name, file_name.
  rewrite !length_append, Wy, Wm. cbn. repeat split; reflexivity.
Qed.

End FileNames.

(** ** The further properties on sample runs *)

(** A run on a month of the years 1678 to 2261 returns its rows. *)
Lemma run_returns_rows (c : Config) (fresh : Z) :
  1678 <= year c <= 2261 -> 1 <= month c <= 12 ->
  gen c fresh = Ok (rows_of (gen c fresh)).
Proof.
  intros Hy Hm.
  destruct (month_rows_by_position Z lcg_seeded lcg_normal c fresh Hy Hm)
    as (rows & Hgen & _).
  unfold gen. rewrite Hgen. reflexivity.
Qed.

Lemma preview_is_first_week_witness :
  (2000 <= 2024 <= 2100 /\ 1 <= 2 <= 12 /\ 0 <= 0)
  /\ exists rows,
       gen office 0 = Ok rows
       /\ List.length (Report.preview rows) = 168%nat.
Proof.
  split; [lia|].
  destruct (preview_is_first_week Z lcg_seeded lcg_normal office 0)
    as (rows & Hgen & Hlen & _); [cbn; lia | cbn; lia | cbn; lia |].
  exists rows. split; [exact Hgen | exact Hlen].
Defined.

Lemma summary_metrics_witness :
  (2000 <= 2024 <= 2100 /\ 1 <= 2 <= 12 /\ 0 <= 42)
  /\ exists rows average peak,
       gen office_noisy 0 = Ok rows
       /\ Report.hours_in_month rows = 696
       /\ Report.average_load rows = Some average
       /\ Report.peak_metric rows = Some peak
       /\ (0 <= average)%Q /\ (0 <= peak)%Q.
Proof.
  split; [lia|].
  destruct (summary_metrics Z lcg_seeded lcg_normal office_noisy 0
              valid_8 valid_18)
    as (rows & average & peak & Hgen & Hcount & Hmean & Hpeak & _ & _
        & Hpos); [cbn; lia | cbn; lia | cbn; lia |].
  exists rows, average, peak.
  repeat (split; [assumption|]).
  apply Hpos; vm_compute; discriminate.
Defined.

(** Thursday 2024-02-01 and Thursday 2024-02-08, both at 09:00. *)
Lemma rows_repeat_weekly_witness :
  Weekday (row office 177) = Weekday (row office 9)
  /\ Operating (row office 177) = Operating (row office 9)
  /\ Load_kW (row office 177) = Load_kW (row office 9).
Proof.
  assert (H9 : nth_error (rows office) 9 = Some (row office 9))
    by (vm_compute; reflexivity).
  assert (H177 : nth_error (rows office) (9 + 168) = Some (row office 177))
    by (vm_compute; reflexivity).
  destruct (rows_repeat_weekly Z lcg_seeded lcg_normal office 0 (rows office)
              9 (row office 9) (row office 177) office_runs H9 H177)
    as (Hday & Hflag & Hload).
  split; [exact Hday|]. split; [exact Hflag|].
  apply Hload. vm_compute. discriminate.
Defined.

Lemma zero_load_stays_zero_witness :
  (base_load Scenario.no_base_noisy == 0)%Q
  /\ Forall (fun r => Operating r = false -> (Load_kW r == 0)%Q)
            (rows Scenario.no_base_noisy).
Proof.
  split; [reflexivity|].
  apply Forall_forall. intros r Hin.
  apply (zero_load_stays_zero Z lcg_seeded lcg_normal Scenario.no_base_noisy 0
           (rows Scenario.no_base_noisy) r);
    [apply run_returns_rows; cbn; lia | exact Hin | reflexivity].
Defined.

Lemma operating_days_all_or_none_witness :
  Forall (fun r => Operating r = false) (rows Scenario.closed)
  /\ Forall (fun r =>
               Operating r
               = in_hours (mk_time 8 0 0) (mk_time 18 0 0)
                   (ts_time (Datetime r)))
            (rows Scenario.every_day).
Proof.
  split; apply Forall_forall; intros r Hin.
  - apply (operating_days_all_or_none Z lcg_seeded lcg_normal Scenario.closed
             0 (rows Scenario.closed) r);
      [apply run_returns_rows; cbn; lia | exact Hin | reflexivity].
  - apply (operating_days_all_or_none Z lcg_seeded lcg_normal
             Scenario.every_day 0 (rows Scenario.every_day) r);
      [apply run_returns_rows; cbn; lia | exact Hin |].
    intros day Hday. exact Hday.
Defined.

Lemma flat_profile_witness :
  (peak_load Scenario.flat == base_load Scenario.flat)%Q
  /\ Forall (fun r => (Load_kW r == round3 80)%Q) (rows Scenario.flat).
Proof.
  split; [reflexivity|].
  apply Forall_forall. intros r Hin.
  apply (flat_profile Z lcg_seeded lcg_normal Scenario.flat 0
           (rows Scenario.flat) r (Qeq_refl 80));
    [apply run_returns_rows; cbn; lia | exact Hin | vm_compute; discriminate].
Defined.

(** State 42 of the sample source draws -3/2: 5 % of noise on 100 kW
    stays within 7.5 kW. *)
Lemma noise_within_samples_witness :
  (- (3 # 2) <= fst (lcg_normal 42%Z) <= 3 # 2)%Q
  /\ (100 - 5 / 100 * (3 # 2) * 100
      <= fst (apply_noise lcg_normal office_noisy 42%Z 100)
      <= 100 + 5 / 100 * (3 # 2) * 100)%Q.
Proof.
  assert (Hz : (- (3 # 2) <= fst (lcg_normal 42%Z) <= 3 # 2)%Q)
    by (split; vm_compute; discriminate).
  split; [exact Hz|].
  apply (noise_within_samples Z lcg_normal office_noisy 42 100 (3 # 2));
    [vm_compute; reflexivity | vm_compute; discriminate | exact Hz].
Defined.

Lemma download_names_identify_month_witness :
  Report.excel_file_name office = "load_model_2024_02.xlsx"%string
  /\ String.length (Report.excel_file_name office) = 23%nat
  /\ String.length (Report.csv_file_name Scenario.december) = 22%nat.
Proof.
  split; [vm_compute; reflexivity|]. split.
  - apply (download_names_identify_month office office); cbn; lia.
  - apply (download_names_identify_month Scenario.december Scenario.december);
      cbn; lia.
Defined.

(** ** The window as elapsed time *)

(** X12. An overnight window is handled as a daytime window of the same
    length: for an operating hour the profile depends on the seconds
    elapsed since the opening and on the length of the window alone,
    both taken modulo one day.  With [elapsed] and [length] so defined,
    [0 <= elapsed < length], and the load before the noise rises from
    the base load over the first half of the length and falls back over
    the second. *)
Theorem profile_by_elapsed_time (c : Config) (ts : Timestamp) :
  valid_time (operating_start c) -> valid_time (operating_end c) ->
  is_operating c ts = true ->
  let elapsed :=
    (seconds_of (ts_time ts) - seconds_of (operating_start c)) mod 86400 in
  let length :=
    (seconds_of (operating_end c) - seconds_of (operating_start c))
      mod 86400 in
  let half := (inject_Z length / 2)%Q in
  current_seconds c ts - start_seconds c = elapsed /\
  end_seconds c - start_seconds c = length /\
  0 <= elapsed < length /\
  ((inject_Z elapsed <= half ->
    pre_noise_load c ts ==
    base_load c + (peak_load c - base_load c)
                  * (inject_Z elapsed / Qmax half 1))
   /\ (half < inject_Z elapsed ->
       pre_noise_load c ts ==
       peak_load c - (peak_load c - base_load c)
                     * ((inject_Z elapsed - half) / Qmax half 1)))%Q.
Proof.
  intros Hs He Hop elapsed length half.
  assert (Hin : in_hours (operating_start c) (operating_end c) (ts_time ts)
                = true)
    by (unfold is_operating in Hop; apply andb_true_iff in Hop; tauto).
  pose proof (window_position c ts Hs He Hin) as Hpos.
  pose proof (seconds_of_bounds _ Hs) as Bs.
  pose proof (seconds_of_bounds _ He) as Be.
  pose proof (seconds_of_bounds _ (ts_time_valid ts)) as Bc.
  assert (Hne : seconds_of (operating_start c)
                <> seconds_of (operating_end c)).
  { intros Heq. rewrite in_hours_seconds in Hin by auto using ts_time_valid.
    rewrite Heq, Z.leb_refl in Hin. lia. }
  assert (Hcur : current_seconds c ts - start_seconds c = elapsed).
  { subst elapsed. clear Hpos. unfold current_seconds, start_seconds.
    change (ts_hour ts * 3600 + ts_minute ts * 60 + ts_second ts)
      with (seconds_of (ts_time ts)).
    destruct (seconds_of (ts_time ts) <? seconds_of (operating_start c)) eqn:E;
      Z.div_mod_to_equations; lia. }
  assert (Hlen : end_seconds c - start_seconds c = length).
  { subst length. clear Hpos. unfold end_seconds, start_seconds.
    destruct (seconds_of (operating_end c) <=? seconds_of (operating_start c))
      eqn:E; Z.div_mod_to_equations; lia. }
  split; [exact Hcur|]. split; [exact Hlen|]. split; [lia|].
  rewrite (operating_pre_noise_load c ts Hop).
  pose proof (triangular_load_halves c ts) as Hhalves. cbv zeta in Hhalves.
  destruct Hhalves as [Hrise Hfall].
  assert (HcurQ : (inject_Z (current_seconds c ts)
                   == inject_Z (start_seconds c) + inject_Z elapsed)%Q)
    by (rewrite <- inject_Z_plus, <- Hcur; f_equiv; lia).
  assert (HendQ : (inject_Z (end_seconds c)
                   == inject_Z (start_seconds c) + inject_Z length)%Q)
    by (rewrite <- inject_Z_plus, <- Hlen; f_equiv; lia).
  assert (Hmid : (2 * midpoint c
                  == inject_Z (start_seconds c) + inject_Z (end_seconds c))%Q)
    by (unfold midpoint; rewrite inject_Z_plus; field).
  assert (Hhalf : (2 * half == inject_Z length)%Q) by (unfold half; field).
  set (S := inject_Z (start_seconds c)) in *.
  set (E := inject_Z (end_seconds c)) in *.
  set (C := inject_Z (current_seconds c ts)) in *.
  set (M := midpoint c) in *.
  set (L := inject_Z length) in *. set (T := inject_Z elapsed) in *.
  assert (E1 : (M - S == half)%Q) by lra.
  assert (E2 : (E - M == half)%Q) by lra.
  assert (E3 : (C - S == T)%Q) by lra.
  assert (E4 : (C - M == T - half)%Q) by lra.
  rewrite E1, E3 in Hrise. rewrite E2, E4 in Hfall.
  split; intros H; [apply Hrise | apply Hfall]; lra.
Qed.

Lemma profile_by_elapsed_time_witness :
  is_operating night_shift (feb1 2) = true
  /\ current_seconds night_shift (feb1 2) - start_seconds night_shift = 14400
  /\ end_seconds night_shift - start_seconds night_shift = 28800.
Proof.
  assert (Hop : is_operating night_shift (feb1 2) = true)
    by (vm_compute; reflexivity).
  split; [exact Hop|].
  destruct (profile_by_elapsed_time night_shift (feb1 2) valid_22 valid_6 Hop)
    as (Hcur & Hlen & _).
  split; [exact Hcur | exact Hlen].
Defined.
